(** * PM2.5 ingest and query API (app.py): model and verified properties

    The program is a thin HTTP-to-SQL layer: four endpoint functions that
    build SQL statements and run them on a PostgreSQL connection.  The model
    has three layers:

    - the values, dictionaries and rows the Python code manipulates;
    - the meaning of the SQL statements the code sends (upsert on conflict,
      ORDER BY ... DESC, LIMIT, the aggregates) and of the psycopg2
      connection scope ([with get_conn() as conn, conn.cursor() as cur]);
    - the endpoint functions [ingest], [latest], [history], [stats],
      written as the source writes them.

    PM2.5 readings are Python floats, stored in double precision columns:
    here they are binary64 floats, with their rounding, infinities and
    NaN. *)

From Stdlib Require Import List String ZArith Bool Lia.
From Stdlib Require Import PrimFloat SpecFloat FloatOps.
From Stdlib Require Import Permutation Sorted.
Import ListNotations.

Set Warnings "-register-all".
Set Warnings "-inexact-float".

Local Open Scope string_scope.
Local Open Scope Z_scope.

(* ================================================================== *)
(** ** Values, dictionaries, rows *)

(** Python values that travel between the request, the database driver and
    the response.  A [date] is carried by its proleptic ordinal
    ([date.toordinal()]), which orders dates as Python and SQL do. *)
Inductive value : Type :=
| VNone
| VInt (n : Z)
| VFloat (x : float)
| VStr (s : string)
| VDate (ordinal : Z)
| VList (items : list value)
| VDict (items : list (string * value)).
Arguments VFloat x%_float.

(** A Python [dict] with string keys, in insertion order.  The keys of a
    dict are pairwise distinct: [dict_ok]. *)
Definition Dict (V : Type) : Type := list (string * V).

Fixpoint distinct (ks : list string) : bool :=
  match ks with
  | [] => true
  | k :: ks' => negb (existsb (String.eqb k) ks') && distinct ks'
  end.

Definition dict_ok {V : Type} (d : Dict V) : Prop :=
  distinct (map fst d) = true.

(** [d.get(k)] *)
Fixpoint dict_get {V : Type} (d : Dict V) (k : string) : option V :=
  match d with
  | [] => None
  | (k', v) :: d' => if String.eqb k' k then Some v else dict_get d' k
  end.

(** A stored row: column name and value, in the column order of its table. *)
Definition Row : Type := Dict value.

(** The value of column [c] in row [r]; a column the row lacks reads NULL. *)
Definition col (c : string) (r : Row) : value :=
  match dict_get r c with
  | Some v => v
  | None => VNone
  end.

(** An exception; [str] is its message text. *)
Inductive exn : Type := Error (msg : string).

Definition str (e : exn) : string := let 'Error msg := e in msg.

(* ================================================================== *)
(** ** SQL: the statements used by app.py *)

(** The place of a double precision value in the server's order of such
    values: a finite value m * 2^e by the integer m * 2^(e + 1074) (no
    binary64 exponent is below -1074), both zeros at 0, the infinities
    beyond every finite value, and NaN above everything, equal to itself. *)
Definition float8_key (x : float) : Z :=
  match Prim2SF x with
  | S754_zero _ => 0
  | S754_finite s m e =>
      let v := Z.shiftl (Zpos m) (e + 1074) in
      if s then - v else v
  | S754_infinity s => if s then - 2 ^ 2100 else 2 ^ 2100
  | S754_nan => 2 ^ 2101
  end.

(** The server's comparisons of double precision values. *)
Definition float8_eq (x y : float) : bool := float8_key x =? float8_key y.

Definition float8_lt (x y : float) : bool := float8_key x <? float8_key y.

Definition float8_le (x y : float) : bool := float8_key x <=? float8_key y.

Definition float8_gt (x y : float) : bool := float8_lt y x.

(** SQL [a = b] on scalar values: never true when an operand is NULL. *)
Definition sql_eqb (a b : value) : bool :=
  match a, b with
  | VInt x, VInt y => Z.eqb x y
  | VFloat x, VFloat y => float8_eq x y
  | VStr s, VStr t => String.eqb s t
  | VDate x, VDate y => Z.eqb x y
  | _, _ => false
  end.

(** [new] conflicts with stored row [old] on the unique key [key]. *)
Definition conflicts (key : list string) (new old : Row) : bool :=
  forallb (fun c => sql_eqb (col c new) (col c old)) key.

(** [DO UPDATE SET c = EXCLUDED.c] for every [c] of [update_set], applied to
    the stored row [old]; the other columns of [old] keep their values. *)
Definition do_update (update_set : list string) (excluded old : Row) : Row :=
  map (fun cv : string * value =>
         (fst cv,
          if existsb (String.eqb (fst cv)) update_set
          then col (fst cv) excluded
          else snd cv))
      old.

(** [INSERT INTO t (...) VALUES (...) ON CONFLICT (key) DO UPDATE SET ...]
    for one proposed row: the conflicting stored row is updated in place;
    without a conflict the row is added. *)
Definition insert_on_conflict_do_update
    (key update_set : list string) (new : Row) (t : list Row) : list Row :=
  if existsb (conflicts key new) t
  then map (fun old => if conflicts key new old
                       then do_update update_set new old
                       else old) t
  else t ++ [new].

(** [ORDER BY]: NULL sorts as larger than every value; a column holds
    values of one type. *)
Definition sql_leb (a b : value) : bool :=
  match a, b with
  | _, VNone => true
  | VNone, _ => false
  | VInt x, VInt y => Z.leb x y
  | VDate x, VDate y => Z.leb x y
  | VFloat x, VFloat y => float8_le x y
  | VStr s, VStr t => String.leb s t
  | _, _ => false
  end.

(** [ORDER BY c DESC], as an insertion sort: [r] goes in front of the first
    row whose [c] is not larger. *)
Fixpoint insert_desc (c : string) (r : Row) (l : list Row) : list Row :=
  match l with
  | [] => [r]
  | x :: l' =>
      if sql_leb (col c x) (col c r) then r :: x :: l'
      else x :: insert_desc c r l'
  end.

Definition order_by_desc (c : string) (t : list Row) : list Row :=
  fold_right (insert_desc c) [] t.

(** The row count of [LIMIT] is a bigint. *)
Definition PG_INT64_MAX : Z := 9223372036854775807.

(** [LIMIT n]: PostgreSQL rejects a negative count, and a count that does
    not fit bigint. *)
Definition limit_rows (n : Z) (t : list Row) : list Row + exn :=
  if n <? 0 then inr (Error "LIMIT must not be negative")
  else if PG_INT64_MAX <? n then inr (Error "bigint out of range")
  else inl (firstn (Z.to_nat n) t).

(** The select list [c1, ..., cn] evaluated on one row. *)
Definition project (select_list : list string) (r : Row) : list value :=
  map (fun c => col c r) select_list.

(** The non-NULL numbers of column [c]: what AVG, MIN and MAX range over,
    in the order the rows are scanned, which is the order of the table. *)
Definition column_numbers (c : string) (t : list Row) : list float :=
  flat_map (fun r => match col c r with VFloat x => [x] | _ => [] end) t.

(** The transition of AVG on double precision: the count and the sum so
    far, both double precision, take the next value in. *)
Definition float8_accum (transvalues : float * float) (newval : float)
  : float * float :=
  (fst transvalues + 1, snd transvalues + newval)%float.

(** The final function of AVG: the sum divided by the count. *)
Definition float8_avg (transvalues : float * float) : float :=
  (snd transvalues / fst transvalues)%float.

(** The transitions of MIN and MAX. *)
Definition float8smaller (arg1 arg2 : float) : float :=
  if float8_lt arg1 arg2 then arg1 else arg2.

Definition float8larger (arg1 arg2 : float) : float :=
  if float8_gt arg1 arg2 then arg1 else arg2.

(** [AVG], [MIN], [MAX]: NULL over no input. *)
Definition sql_avg (xs : list float) : value :=
  match xs with
  | [] => VNone
  | _ :: _ => VFloat (float8_avg (fold_left float8_accum xs (0, 0)%float))
  end.

Definition sql_min (xs : list float) : value :=
  match xs with
  | [] => VNone
  | x :: xs' => VFloat (fold_left float8smaller xs' x)
  end.

Definition sql_max (xs : list float) : value :=
  match xs with
  | [] => VNone
  | x :: xs' => VFloat (fold_left float8larger xs' x)
  end.

(* ================================================================== *)
(** ** The database and the psycopg2 connection scope *)

(** Column types of the two tables. *)
Inductive sqltype : Type := DATE | TEXT | FLOAT | JSON.

(** The values a column of type [ty] holds; every type has NULL, and a JSON
    column holds the document as its text. *)
Definition has_type (v : value) (ty : sqltype) : bool :=
  match v, ty with
  | VNone, _ => true
  | VDate _, DATE => true
  | VStr _, TEXT => true
  | VFloat _, FLOAT => true
  | VStr _, JSON => true
  | _, _ => false
  end.

Record Schema : Type := {
  columns : list (string * sqltype);
  primary_key : list string
}.

(** Modelled from the spec: the DDL of table estimasi_harian is not in the
    repository.  Section 6 of the specification gives it a date primary key,
    city, city-average and eleven nullable area columns; the names are those
    the statements of app.py use. *)
Definition estimasi_harian_schema : Schema := {|
  columns := [("tanggal", DATE); ("kota", TEXT); ("rata_rata_kota", FLOAT);
              ("beji", FLOAT); ("bojongsari", FLOAT); ("cilodong", FLOAT);
              ("cimanggis", FLOAT); ("cinere", FLOAT); ("cipayung", FLOAT);
              ("limo", FLOAT); ("pancoran_mas", FLOAT); ("sawangan", FLOAT);
              ("sukmajaya", FLOAT); ("tapos", FLOAT)];
  primary_key := ["tanggal"]
|}.

(** Modelled from the spec: the DDL of table estimasi_metadata is not in the
    repository.  Section 6 of the specification gives it the composite
    primary key (date, area) and two blob columns. *)
Definition estimasi_metadata_schema : Schema := {|
  columns := [("tanggal", DATE); ("kecamatan", TEXT); ("fitur", JSON);
              ("tanggal_fitur", JSON)];
  primary_key := ["tanggal"; "kecamatan"]
|}.

Record Database : Type := {
  estimasi_harian : list Row;
  estimasi_metadata : list Row
}.

Definition empty_db : Database :=
  {| estimasi_harian := []; estimasi_metadata := [] |}.

(** The calls a request makes on the database server. *)
Inductive db_call : Type :=
| Connect
| Execute (nth : nat)
| Commit
| Rollback.

(** What the server and the network do to a request, which the program does
    not control: the calls that fail, and with which error. *)
Definition Faults : Type := db_call -> option exn.

Definition no_faults : Faults := fun _ => None.

(** The result set of a statement: column names and rows. *)
Definition ResultSet : Type := (list string * list (list value))%type.

(** A statement maps the transaction's view of the database to a new view
    and a result set, or is rejected by the server. *)
Definition Statement : Type := Database -> (Database * ResultSet) + exn.

(** The state of [cur] inside the [with] block. *)
Record Cursor : Type := {
  view : Database;
  executed : nat;
  description : list string;
  pending : list (list value);
  calls : list db_call
}.

(** Code run inside the [with] block. *)
Definition Txn (A : Type) : Type := Faults -> Cursor -> (A + exn) * Cursor.

Definition ret {A : Type} (a : A) : Txn A := fun _ c => (inl a, c).

Definition raise {A : Type} (e : exn) : Txn A := fun _ c => (inr e, c).

Definition bind {A B : Type} (m : Txn A) (k : A -> Txn B) : Txn B :=
  fun F c =>
    match m F c with
    | (inl a, c') => k a F c'
    | (inr e, c') => (inr e, c')
    end.

Notation "x <- m ;; k" := (bind m (fun x => k))
  (at level 61, m at next level, right associativity).
Notation "m ;;; k" := (bind m (fun _ => k))
  (at level 61, right associativity).

(** [cur.execute(sql, args)] *)
Definition execute (sql : Statement) : Txn unit :=
  fun F c =>
    let call := Execute (executed c) in
    let c' := {| view := view c; executed := S (executed c);
                 description := description c; pending := pending c;
                 calls := calls c ++ [call] |} in
    match F call with
    | Some e => (inr e, c')
    | None =>
        match sql (view c) with
        | inr e => (inr e, c')
        | inl (db', (names, rs)) =>
            (inl tt, {| view := db'; executed := S (executed c);
                        description := names; pending := rs;
                        calls := calls c ++ [call] |})
        end
    end.

(** [cur.fetchone()] *)
Definition fetchone : Txn (option (list value)) :=
  fun _ c =>
    match pending c with
    | [] => (inl None, c)
    | r :: rs =>
        (inl (Some r), {| view := view c; executed := executed c;
                          description := description c; pending := rs;
                          calls := calls c |})
    end.

(** [cur.fetchall()] *)
Definition fetchall : Txn (list (list value)) :=
  fun _ c =>
    (inl (pending c), {| view := view c; executed := executed c;
                         description := description c; pending := [];
                         calls := calls c |}).

(** [[d.name for d in cur.description]] *)
Definition description_names : Txn (list string) :=
  fun _ c => (inl (description c), c).

(** What a run leaves behind: its result, the committed database and the
    calls made on the server. *)
Record Run (A : Type) : Type := {
  result : A;
  store : Database;
  trace : list db_call
}.
Arguments result {A} _.
Arguments store {A} _.
Arguments trace {A} _.

(** [with get_conn() as conn, conn.cursor() as cur: body].  [get_conn]
    connects; leaving the block without an exception commits the
    transaction, leaving it with one rolls the transaction back and lets the
    exception through.  Nothing reaches the stored database before the
    commit. *)
Definition with_get_conn {A : Type} (body : Txn A) (F : Faults) (db : Database)
  : Run (A + exn) :=
  match F Connect with
  | Some e => {| result := inr e; store := db; trace := [Connect] |}
  | None =>
      match body F {| view := db; executed := O; description := [];
                      pending := []; calls := [Connect] |} with
      | (inl a, c) =>
          match F Commit with
          | Some e => {| result := inr e; store := db;
                         trace := calls c ++ [Commit] |}
          | None => {| result := inl a; store := view c;
                       trace := calls c ++ [Commit] |}
          end
      | (inr e, c) => {| result := inr e; store := db;
                         trace := calls c ++ [Rollback] |}
      end
  end.

(* ================================================================== *)
(** ** app.py: the model class and its validator *)

Record PayloadAggregat : Type := {
  tanggal : Z;
  kota : string;
  estimasi : Dict float;
  rata_rata_kota : float;
  tanggal_fitur : option (Dict (Dict string))
}.

(** The JSON body of an ingest request, each field already of its declared
    type; [kota] and [tanggal_fitur] may be left out. *)
Record Body : Type := {
  body_tanggal : Z;
  body_kota : option string;
  body_estimasi : Dict float;
  body_rata_rata_kota : float;
  body_tanggal_fitur : option (Dict (Dict string))
}.

(** The validator of field [estimasi]: [raise ValueError("estimasi kosong")]
    on an empty dict. *)
Definition not_empty (v : Dict float) : Dict float + exn :=
  match v with
  | [] => inr (Error "estimasi kosong")
  | _ :: _ => inl v
  end.

(** Building [PayloadAggregat] from a body: defaults, then the validator. *)
Definition parse_body (b : Body) : PayloadAggregat + exn :=
  match not_empty (body_estimasi b) with
  | inr e => inr e
  | inl v =>
      inl {| tanggal := body_tanggal b;
             kota := match body_kota b with Some k => k | None => "Depok" end;
             estimasi := v;
             rata_rata_kota := body_rata_rata_kota b;
             tanggal_fitur := body_tanggal_fitur b |}
  end.

(* ================================================================== *)
(** ** app.py: the endpoint functions *)

(** How an endpoint function ends: it returns a value, raises
    [HTTPException], or lets another exception through. *)
Inductive Outcome : Type :=
| Return (v : value)
| HTTPException (status_code : Z) (detail : string)
| Unhandled (e : exn).

Definition kolom_map : Dict string :=
  [("Beji", "beji"); ("Bojongsari", "bojongsari"); ("Cilodong", "cilodong");
   ("Cimanggis", "cimanggis"); ("Cinere", "cinere"); ("Cipayung", "cipayung");
   ("Limo", "limo"); ("Pancoran Mas", "pancoran_mas");
   ("Sawangan", "sawangan"); ("Sukmajaya", "sukmajaya"); ("Tapos", "tapos")].

(** [cols = ['tanggal', 'kota', 'rata_rata_kota'] + list(kolom_map.values())] *)
Definition cols : list string :=
  ["tanggal"; "kota"; "rata_rata_kota"] ++ map snd kolom_map.

(** A float or [None] as a query argument. *)
Definition float_or_none (o : option float) : value :=
  match o with
  | Some x => VFloat x
  | None => VNone
  end.

(** [values]: the three leading fields, then [payload.estimasi.get(k)] for
    every key of [kolom_map]. *)
Definition values (payload : PayloadAggregat) : list value :=
  [VDate (tanggal payload); VStr (kota payload);
   VFloat (rata_rata_kota payload)]
  ++ map (fun k => float_or_none (dict_get (estimasi payload) k))
         (map fst kolom_map).

(** [cols[1:]], the columns of [update_set]. *)
Definition update_set : list string := tl cols.

(** [upsert_sql] with its arguments: the row pairs [cols] with the
    arguments, position by position. *)
Definition upsert_sql (args : list value) : Statement :=
  fun db =>
    inl ({| estimasi_harian :=
              insert_on_conflict_do_update ["tanggal"] update_set
                (combine cols args) (estimasi_harian db);
            estimasi_metadata := estimasi_metadata db |},
         ([], [])).

(** The statement given to [execute_values], with its rows: each row is
    proposed in turn, inside the same transaction. *)
Definition upsert_metadata_sql (argslist : list (list value)) : Statement :=
  fun db =>
    inl ({| estimasi_harian := estimasi_harian db;
            estimasi_metadata :=
              fold_left
                (fun t args =>
                   insert_on_conflict_do_update ["tanggal"; "kecamatan"]
                     ["fitur"; "tanggal_fitur"]
                     (combine ["tanggal"; "kecamatan"; "fitur"; "tanggal_fitur"]
                              args) t)
                argslist (estimasi_metadata db) |},
         ([], [])).

(** [execute_values(cur, sql, argslist)] *)
Definition execute_values (sql : list (list value) -> Statement)
    (argslist : list (list value)) : Txn unit :=
  execute (sql argslist).

Section Ingest.

(** [json.dumps] on a dict of strings: a library function, left open. *)
Variable json_dumps : Dict string -> string.

(** [meta_rows]: one tuple per item of [payload.tanggal_fitur], when that
    dict is present and not empty. *)
Definition meta_rows (payload : PayloadAggregat) : list (list value) :=
  match tanggal_fitur payload with
  | Some ((_ :: _) as tf) =>
      map (fun kec_meta : string * Dict string =>
             let fitur : Dict string := [] in
             [VDate (tanggal payload); VStr (fst kec_meta);
              VStr (json_dumps fitur); VStr (json_dumps (snd kec_meta))])
          tf
  | _ => []
  end.

(** [ingest(payload)] *)
Definition ingest (payload : PayloadAggregat) (F : Faults) (db : Database)
  : Run Outcome :=
  let r :=
    with_get_conn
      (execute (upsert_sql (values payload)) ;;;
       match meta_rows payload with
       | [] => ret tt
       | _ :: _ => execute_values upsert_metadata_sql (meta_rows payload)
       end)
      F db in
  match result r with
  | inl _ =>
      {| result :=
           Return (VDict [("status", VStr "ok");
                          ("upserted", VStr "estimasi_harian");
                          ("meta_rows",
                           VInt (Z.of_nat (List.length (meta_rows payload))))]);
         store := store r; trace := trace r |}
  | inr e =>
      {| result := HTTPException 500 (str e);
         store := store r; trace := trace r |}
  end.

End Ingest.

(** Leaving an endpoint function whose [with] block is not inside a [try]. *)
Definition leave (r : Run (value + exn)) : Run Outcome :=
  {| result := match result r with
               | inl v => Return v
               | inr e => Unhandled e
               end;
     store := store r; trace := trace r |}.

(** [SELECT * FROM estimasi_harian ORDER BY tanggal DESC LIMIT 1] *)
Definition latest_sql : Statement :=
  fun db =>
    match limit_rows 1 (order_by_desc "tanggal" (estimasi_harian db)) with
    | inr e => inr e
    | inl rs =>
        let names := map fst (columns estimasi_harian_schema) in
        inl (db, (names, map (project names) rs))
    end.

(** [latest()] *)
Definition latest (F : Faults) (db : Database) : Run Outcome :=
  leave
    (with_get_conn
       (execute latest_sql ;;;
        row <- fetchone ;;
        match row with
        | None => ret (VDict [("data", VNone)])
        | Some row =>
            cols <- description_names ;;
            ret (VDict [("data", VDict (combine cols row))])
        end)
       F db).

(** The select list of [history]. *)
Definition history_columns : list string :=
  ["tanggal"; "kota"; "rata_rata_kota"; "beji"; "bojongsari"; "cilodong";
   "cimanggis"; "cinere"; "cipayung"; "limo"; "pancoran_mas"; "sawangan";
   "sukmajaya"; "tapos"].

(** [SELECT tanggal, ..., tapos FROM estimasi_harian ORDER BY tanggal DESC
    LIMIT %s] *)
Definition history_sql (limit : Z) : Statement :=
  fun db =>
    match limit_rows limit (order_by_desc "tanggal" (estimasi_harian db)) with
    | inr e => inr e
    | inl rs => inl (db, (history_columns, map (project history_columns) rs))
    end.

(** [history(limit)] *)
Definition history (limit : Z) (F : Faults) (db : Database) : Run Outcome :=
  leave
    (with_get_conn
       (execute (history_sql limit) ;;;
        cols <- description_names ;;
        rs <- fetchall ;;
        ret (VDict [("data", VList (map (fun r => VDict (combine cols r)) rs))]))
       F db).

(** The default of parameter [limit]. *)
Definition history_default_limit : Z := 30.

(** [SELECT COUNT( * ) AS n_hari, AVG(rata_rata_kota) AS pm25_avg,
    MIN(rata_rata_kota) AS pm25_min, MAX(rata_rata_kota) AS pm25_max
    FROM estimasi_harian]: always one row. *)
Definition stats_sql : Statement :=
  fun db =>
    let xs := column_numbers "rata_rata_kota" (estimasi_harian db) in
    inl (db, (["n_hari"; "pm25_avg"; "pm25_min"; "pm25_max"],
              [[VInt (Z.of_nat (List.length (estimasi_harian db)));
                sql_avg xs; sql_min xs; sql_max xs]])).

(** [stats()]; [zip(cols, None)] would raise [TypeError]. *)
Definition stats (F : Faults) (db : Database) : Run Outcome :=
  leave
    (with_get_conn
       (execute stats_sql ;;;
        row <- fetchone ;;
        cols <- description_names ;;
        match row with
        | None => raise (Error "'NoneType' object is not iterable")
        | Some row => ret (VDict [("data", VDict (combine cols row))])
        end)
       F db).

(* ================================================================== *)
(** ** The framework around the endpoint functions *)

Record Response : Type := {
  status : Z;
  content : value
}.

(** FastAPI's answer to the way an endpoint function ends: 200 with the
    returned value, the status and detail of an [HTTPException], and the
    fixed text of the server-error middleware for any other exception. *)
Definition respond (o : Outcome) : Response :=
  match o with
  | Return v => {| status := 200; content := v |}
  | HTTPException code detail =>
      {| status := code; content := VDict [("detail", VStr detail)] |}
  | Unhandled _ =>
      {| status := 500; content := VStr "Internal Server Error" |}
  end.

(** [POST /api/pm25/ingest]: FastAPI builds the [PayloadAggregat] first and
    answers 422 when that fails, without calling [ingest]; the detail of
    that answer is the list of error objects of the failed validation,
    [errors], which the library makes and which is left open. *)
Definition post_ingest (json_dumps : Dict string -> string)
    (errors : exn -> list value)
    (b : Body) (F : Faults) (db : Database) : Run Response :=
  match parse_body b with
  | inr e =>
      {| result := {| status := 422;
                      content := VDict [("detail", VList (errors e))] |};
         store := db; trace := [] |}
  | inl payload =>
      let r := ingest json_dumps payload F db in
      {| result := respond (result r); store := store r; trace := trace r |}
  end.

(** [GET /api/pm25/history?limit=...] *)
Definition get_history (limit : option Z) (F : Faults) (db : Database)
  : Run Outcome :=
  history (match limit with Some n => n | None => history_default_limit end)
          F db.

(* ================================================================== *)
(** ** Well-formed databases, and the vocabulary of the statements *)

(** Row [r] has the columns of [cs], in order, each holding a value of the
    column's type. *)
Fixpoint typed (r : Row) (cs : list (string * sqltype)) : bool :=
  match r, cs with
  | [], [] => true
  | (c, v) :: r', (c', ty) :: cs' =>
      String.eqb c c' && has_type v ty && typed r' cs'
  | _, _ => false
  end.

Definition is_null (v : value) : bool :=
  match v with
  | VNone => true
  | _ => false
  end.

(** A row of a table with schema [S]: typed, primary key not NULL. *)
Definition row_ok (S : Schema) (r : Row) : bool :=
  typed r (columns S)
  && forallb (fun c => negb (is_null (col c r))) (primary_key S).

(** The unique constraint on [key]: no two rows of [t] conflict. *)
Fixpoint unique (key : list string) (t : list Row) : bool :=
  match t with
  | [] => true
  | r :: t' => negb (existsb (conflicts key r) t') && unique key t'
  end.

Definition table_ok (S : Schema) (t : list Row) : bool :=
  forallb (row_ok S) t && unique (primary_key S) t.

(** The states the database server can be in. *)
Definition db_ok (db : Database) : Prop :=
  table_ok estimasi_harian_schema (estimasi_harian db)
  && table_ok estimasi_metadata_schema (estimasi_metadata db) = true.

(** Values that are their own only SQL equal: dates and texts. *)
Definition key_value (v : value) : Prop :=
  match v with
  | VDate _ | VStr _ => True
  | _ => False
  end.

(** The values of the key columns of a row. *)
Definition key_of (key : list string) (r : Row) : list value :=
  map (fun c => col c r) key.

(** The rows of estimasi_harian for date [d]. *)
Definition rows_of_date (d : Z) (t : list Row) : list Row :=
  filter (fun r => sql_eqb (col "tanggal" r) (VDate d)) t.

(** The rows of estimasi_metadata for date [d] and area [kec]. *)
Definition rows_of_area (d : Z) (kec : string) (t : list Row) : list Row :=
  filter (fun r => sql_eqb (col "tanggal" r) (VDate d)
                   && sql_eqb (col "kecamatan" r) (VStr kec)) t.

(** Table [t] has a row for date [d]. *)
Definition has_date (d : Z) (t : list Row) : bool :=
  existsb (fun r => sql_eqb (col "tanggal" r) (VDate d)) t.

(** The row [upsert_sql] proposes for a payload. *)
Definition harian_row (payload : PayloadAggregat) : Row :=
  combine cols (values payload).

(** The row the metadata statement proposes for one tuple of [meta_rows]. *)
Definition metadata_row (args : list value) : Row :=
  combine ["tanggal"; "kecamatan"; "fitur"; "tanggal_fitur"] args.

(** The database after both statements of [ingest]. *)
Definition upserted (json_dumps : Dict string -> string)
    (payload : PayloadAggregat) (db : Database) : Database :=
  {| estimasi_harian :=
       insert_on_conflict_do_update ["tanggal"] update_set
         (harian_row payload) (estimasi_harian db);
     estimasi_metadata :=
       fold_left
         (fun t r =>
            insert_on_conflict_do_update ["tanggal"; "kecamatan"]
              ["fitur"; "tanggal_fitur"] r t)
         (map metadata_row (meta_rows json_dumps payload))
         (estimasi_metadata db) |}.

(** The items of [payload.tanggal_fitur], none when it is absent. *)
Definition fitur_items (payload : PayloadAggregat) : Dict (Dict string) :=
  match tanggal_fitur payload with
  | Some tf => tf
  | None => []
  end.

(** The endpoint function returned a value. *)
Definition returned (r : Run Outcome) : bool :=
  match result r with
  | Return _ => true
  | _ => false
  end.

(** The first error among the calls [cs], in the order they are made. *)
Fixpoint first_fault (F : Faults) (cs : list db_call) : option exn :=
  match cs with
  | [] => None
  | c :: cs' =>
      match F c with
      | Some e => Some e
      | None => first_fault F cs'
      end
  end.

(** The calls of a read endpoint. *)
Definition query_calls : list db_call := [Connect; Execute 0; Commit].

(** The calls of [ingest]: the second statement is sent only when there are
    metadata rows. *)
Definition ingest_calls (rows : list (list value)) : list db_call :=
  match rows with
  | [] => [Connect; Execute 0; Commit]
  | _ :: _ => [Connect; Execute 0; Execute 1; Commit]
  end.

(** The date column of row [r] holds a date. *)
Definition dated (r : Row) : Prop := exists d, col "tanggal" r = VDate d.

(** Row [a] has a strictly later date than row [b]. *)
Definition later (a b : Row) : Prop :=
  exists x y, col "tanggal" a = VDate x /\ col "tanggal" b = VDate y /\ y < x.

(** Row [b] is not dated after row [a]. *)
Definition not_after (a b : Row) : Prop :=
  exists x y, col "tanggal" a = VDate x /\ col "tanggal" b = VDate y /\ y <= x.

(** Table [t] has a row for date [d] and area [kec]. *)
Definition has_area (d : Z) (kec : string) (t : list Row) : bool :=
  existsb (fun r => sql_eqb (col "tanggal" r) (VDate d)
                    && sql_eqb (col "kecamatan" r) (VStr kec)) t.

(** A client's ingests, one after the other, each with what the server does
    to it. *)
Fixpoint run_ingests (json_dumps : Dict string -> string)
    (requests : list (PayloadAggregat * Faults)) (db : Database) : Database :=
  match requests with
  | [] => db
  | (payload, F) :: requests' =>
      run_ingests json_dumps requests' (store (ingest json_dumps payload F db))
  end.

(* ================================================================== *)
(** ** app.py: the text of the upsert statement *)

Definition newline : string := String (Ascii.ascii_of_nat 10) EmptyString.

(** [sep.join(l)] *)
Definition join (sep : string) (l : list string) : string :=
  String.concat sep l.

(** [placeholders = ", ".join(["%s"]*len(values))] *)
Definition placeholders (payload : PayloadAggregat) : string :=
  join ", " (repeat "%s" (List.length (values payload))).

(** [", ".join([f'{c}=EXCLUDED.{c}' for c in cols[1:]])], the text of
    [update_set]. *)
Definition update_set_text : string :=
  join ", " (map (fun c => c ++ "=EXCLUDED." ++ c) (tl cols)).

(** The f-string [upsert_sql]. *)
Definition upsert_sql_text (payload : PayloadAggregat) : string :=
  newline ++ "      INSERT INTO estimasi_harian (" ++ join ", " cols ++ ")"
  ++ newline ++ "      VALUES (" ++ placeholders payload ++ ")"
  ++ newline ++ "      ON CONFLICT (tanggal) DO UPDATE SET " ++ update_set_text
  ++ newline ++ "    ".

(* ================================================================== *)
(** ** Rows and keys *)

Lemma distinct_NoDup (ks : list string) : distinct ks = true <-> NoDup ks.
Proof.
  induction ks as [|k ks IH]; simpl.
  - split; [constructor | reflexivity].
  - rewrite andb_true_iff, negb_true_iff, IH. split.
    + intros [Hk Hnd]. constructor; auto. intros Hin.
      assert (existsb (String.eqb k) ks = true); [|congruence].
      apply existsb_exists. exists k. split; [exact Hin|apply String.eqb_refl].
    + intros Hnd. inversion Hnd as [|? ? Hnotin Hnd']; subst. split; auto.
      destruct (existsb (String.eqb k) ks) eqn:E; [|reflexivity].
      apply existsb_exists in E as (x & Hin & Hx).
      apply String.eqb_eq in Hx. subst. contradiction.
Qed.

Lemma col_cons (c c' : string) (v : value) (r : Row) :
  col c ((c', v) :: r) = if String.eqb c' c then v else col c r.
Proof.
  unfold col; simpl. destruct (String.eqb c' c); reflexivity.
Qed.

(** In a row whose column names are distinct, an entry is what [col] reads. *)
Lemma col_in (r : Row) (c : string) (v : value) :
  NoDup (map fst r) -> In (c, v) r -> col c r = v.
Proof.
  induction r as [|[c0 v0] r IH]; simpl; intros Hnd Hin; [contradiction|].
  inversion Hnd as [|? ? Hnotin Hnd']; subst.
  rewrite col_cons. destruct Hin as [Heq|Hin].
  - inversion Heq; subst. now rewrite String.eqb_refl.
  - destruct (String.eqb_spec c0 c) as [->|_].
    + exfalso. apply Hnotin. now apply (in_map fst) in Hin.
    + now apply IH.
Qed.

(** Reading every column of a row back, by name, gives the row. *)
Lemma rebuild_row (r : Row) :
  NoDup (map fst r) -> map (fun c => (c, col c r)) (map fst r) = r.
Proof.
  intros Hnd. rewrite map_map.
  rewrite <- (map_id r) at 2.
  apply map_ext_in. intros [c v] Hin; simpl.
  now rewrite (col_in r c v Hnd Hin).
Qed.

Lemma typed_names (r : Row) (cs : list (string * sqltype)) :
  typed r cs = true -> map fst r = map fst cs.
Proof.
  revert cs. induction r as [|[c v] r IH]; intros [|[c' ty] cs]; simpl;
    try discriminate; [reflexivity|].
  intros H. apply andb_prop in H as [H Hr]. apply andb_prop in H as [Hc _].
  apply String.eqb_eq in Hc. subst. f_equal. now apply IH.
Qed.

(** A typed row holds, in each column, a value of the column's type. *)
Lemma typed_col (r : Row) (cs : list (string * sqltype)) (c : string)
    (ty : sqltype) :
  typed r cs = true -> NoDup (map fst cs) -> In (c, ty) cs ->
  has_type (col c r) ty = true.
Proof.
  revert cs. induction r as [|[c0 v0] r IH]; intros [|[c' ty'] cs]; simpl;
    try discriminate; try contradiction.
  intros H Hnd Hin.
  apply andb_prop in H as [H Hr]. apply andb_prop in H as [Hc Hty].
  apply String.eqb_eq in Hc. subst c'.
  inversion Hnd as [|? ? Hnotin Hnd']; subst.
  rewrite col_cons. destruct Hin as [Heq|Hin].
  - inversion Heq; subst. now rewrite String.eqb_refl.
  - destruct (String.eqb_spec c0 c) as [->|_].
    + exfalso. apply Hnotin. now apply (in_map fst) in Hin.
    + now apply (IH cs).
Qed.

Lemma sql_eqb_eq (a b : value) :
  key_value a -> sql_eqb a b = true <-> a = b.
Proof.
  destruct a; simpl; try contradiction; intros _; split.
  - destruct b; try discriminate. intros H. apply String.eqb_eq in H.
    now subst.
  - intros <-. apply String.eqb_refl.
  - destruct b; try discriminate. intros H. apply Z.eqb_eq in H. now subst.
  - intros <-. apply Z.eqb_refl.
Qed.

Lemma sql_eqb_sym (a b : value) : sql_eqb a b = sql_eqb b a.
Proof.
  destruct a, b; simpl; try reflexivity.
  - apply Z.eqb_sym.
  - apply Z.eqb_sym.
  - apply String.eqb_sym.
  - apply Z.eqb_sym.
Qed.

Lemma conflicts_sym (key : list string) (a b : Row) :
  conflicts key a b = conflicts key b a.
Proof.
  unfold conflicts. induction key as [|c key IH]; simpl; [reflexivity|].
  now rewrite IH, sql_eqb_sym.
Qed.

(** Rows whose key columns hold dates and texts conflict exactly when their
    keys are equal. *)
Lemma conflicts_iff (key : list string) (a b : Row) :
  Forall (fun c => key_value (col c a)) key ->
  conflicts key a b = true <-> key_of key a = key_of key b.
Proof.
  unfold conflicts, key_of. induction 1 as [|c key Hc _ IH]; simpl.
  - split; reflexivity.
  - rewrite andb_true_iff, IH, (sql_eqb_eq _ _ Hc). split.
    + intros [-> ->]. reflexivity.
    + intros H. inversion H. split; congruence.
Qed.

(* ================================================================== *)
(** ** Tables under INSERT ... ON CONFLICT ... DO UPDATE *)

Section Upsert.

Variable S : Schema.
Variable U : list string.

Hypothesis columns_distinct : NoDup (map fst (columns S)).
Hypothesis key_columns :
  forall c, In c (primary_key S) ->
            exists ty, In (c, ty) (columns S) /\ (ty = DATE \/ ty = TEXT).
Hypothesis update_covers :
  forall c, In c (map fst (columns S)) -> In c (primary_key S) \/ In c U.

Let key := primary_key S.
Let upsert := insert_on_conflict_do_update key U.

(** A batch: the rows are proposed one after the other. *)
Let upsert_all (rows : list Row) (t : list Row) : list Row :=
  fold_left (fun t r => upsert r t) rows t.

Lemma row_ok_names (r : Row) :
  row_ok S r = true -> map fst r = map fst (columns S).
Proof.
  unfold row_ok. intros H. apply andb_prop in H as [H _].
  now apply typed_names.
Qed.

Lemma row_ok_key (r : Row) :
  row_ok S r = true -> Forall (fun c => key_value (col c r)) key.
Proof.
  unfold row_ok. intros H. apply andb_prop in H as [Hty Hnn].
  rewrite forallb_forall in Hnn. apply Forall_forall. intros c Hc.
  specialize (Hnn c Hc).
  destruct (key_columns c Hc) as (ty & Hin & Hdt).
  pose proof (typed_col r (columns S) c ty Hty columns_distinct Hin) as Hc'.
  destruct (col c r), Hdt as [-> | ->]; simpl in *; try discriminate; exact I.
Qed.

Lemma conflicts_key (a b : Row) :
  row_ok S a = true -> conflicts key a b = true <-> key_of key a = key_of key b.
Proof.
  intros Ha. apply conflicts_iff. now apply row_ok_key.
Qed.

Lemma conflicts_refl (a : Row) :
  row_ok S a = true -> conflicts key a a = true.
Proof.
  intros Ha. now apply conflicts_key.
Qed.

Lemma key_of_col (a b : Row) (c : string) :
  key_of key a = key_of key b -> In c key -> col c a = col c b.
Proof.
  unfold key_of. induction key as [|c0 k IH]; simpl; [contradiction|].
  intros H [<- | Hin]; inversion H; auto.
Qed.

(** The update of a conflicting row replaces it by the proposed row. *)
Lemma do_update_full (new old : Row) :
  row_ok S new = true -> row_ok S old = true ->
  conflicts key new old = true -> do_update U new old = new.
Proof.
  intros Hn Ho Hc. apply (conflicts_key _ _ Hn) in Hc.
  pose proof (row_ok_names _ Hn) as Nn. pose proof (row_ok_names _ Ho) as No.
  assert (Hnd : NoDup (map fst old)) by now rewrite No.
  assert (Hnd' : NoDup (map fst new)) by now rewrite Nn.
  rewrite <- (rebuild_row new Hnd') at 2.
  rewrite Nn, <- No, map_map. unfold do_update.
  apply map_ext_in. intros [c v] Hin; simpl. f_equal.
  destruct (existsb (String.eqb c) U) eqn:E; [reflexivity|].
  assert (Hck : In c key).
  { destruct (update_covers c) as [Hk|Hu]; [|exact Hk|].
    - rewrite <- No. now apply (in_map fst) in Hin.
    - exfalso. assert (existsb (String.eqb c) U = true); [|congruence].
      apply existsb_exists. exists c. split; [exact Hu|apply String.eqb_refl]. }
  rewrite (key_of_col _ _ c Hc Hck). symmetry. now apply col_in.
Qed.

Lemma existsb_conflicts (r : Row) (t : list Row) :
  row_ok S r = true ->
  existsb (conflicts key r) t = true <->
  In (key_of key r) (map (key_of key) t).
Proof.
  intros Hr. rewrite existsb_exists, in_map_iff. split.
  - intros (x & Hin & Hc). exists x. split; [|exact Hin].
    symmetry. now apply conflicts_key.
  - intros (x & Hk & Hin). exists x. split; [exact Hin|].
    apply conflicts_key; auto.
Qed.

(** A table is well formed when its rows are and their keys are distinct. *)
Lemma table_ok_spec (t : list Row) :
  table_ok S t = true <->
  Forall (fun r => row_ok S r = true) t /\ NoDup (map (key_of key) t).
Proof.
  unfold table_ok. fold key. induction t as [|r t IH]; simpl.
  - split; [intros _; split; constructor | reflexivity].
  - rewrite !andb_true_iff in *. rewrite negb_true_iff. split.
    + intros [[Hr Ht] [Hne Hu]]. destruct IH as [IH _].
      destruct (IH (conj Ht Hu)) as [Hall Hnd]. split; constructor; auto.
      intros Hin. apply (existsb_conflicts r t Hr) in Hin. congruence.
    + intros [Hall Hnd]. inversion Hall; subst. inversion Hnd; subst.
      destruct IH as [_ IH]. destruct (IH (conj H2 H4)) as [Ht Hu].
      repeat split; auto.
      destruct (existsb (conflicts key r) t) eqn:E; [|reflexivity].
      apply existsb_conflicts in E; auto. contradiction.
Qed.

(** On a well-formed table the statement replaces the row with the key of
    the proposed row, or adds the proposed row. *)
Lemma upsert_spec (new : Row) (t : list Row) :
  row_ok S new = true -> table_ok S t = true ->
  upsert new t =
  if existsb (conflicts key new) t
  then map (fun old => if conflicts key new old then new else old) t
  else (t ++ [new])%list.
Proof.
  intros Hn Ht. unfold upsert, insert_on_conflict_do_update.
  destruct (existsb (conflicts key new) t); [|reflexivity].
  apply table_ok_spec in Ht as [Hall _]. rewrite Forall_forall in Hall.
  apply map_ext_in. intros old Hin.
  destruct (conflicts key new old) eqn:E; [|reflexivity].
  apply do_update_full; auto.
Qed.

Lemma upsert_ok (new : Row) (t : list Row) :
  row_ok S new = true -> table_ok S t = true ->
  table_ok S (upsert new t) = true.
Proof.
  intros Hn Ht. rewrite (upsert_spec new t Hn Ht).
  pose proof Ht as Ht'. apply table_ok_spec in Ht' as [Hall Hnd].
  apply table_ok_spec.
  destruct (existsb (conflicts key new) t) eqn:E.
  - split.
    + rewrite Forall_forall in *. intros r Hr. apply in_map_iff in Hr.
      destruct Hr as (old & <- & Hin).
      destruct (conflicts key new old); auto.
    + rewrite map_map.
      replace (map (fun x => key_of key (if conflicts key new x then new else x)) t)
        with (map (key_of key) t); [exact Hnd|].
      apply map_ext_in. intros old Hin.
      destruct (conflicts key new old) eqn:Ec; [|reflexivity].
      symmetry. now apply conflicts_key.
  - split.
    + apply Forall_app. split; [exact Hall|]. constructor; auto.
    + rewrite map_app. simpl.
      apply NoDup_app; [exact Hnd | repeat constructor; intros [] | ].
      intros k Hk [<- | []].
      apply existsb_conflicts in Hk; auto. congruence.
Qed.

(** The proposed row is in the table afterwards. *)
Lemma upsert_in (new : Row) (t : list Row) :
  row_ok S new = true -> table_ok S t = true -> In new (upsert new t).
Proof.
  intros Hn Ht. rewrite (upsert_spec new t Hn Ht).
  destruct (existsb (conflicts key new) t) eqn:E.
  - apply existsb_exists in E as (old & Hin & Hc).
    apply in_map_iff. exists old. now rewrite Hc.
  - apply in_or_app. right. now left.
Qed.

(** Rows with another key stay. *)
Lemma upsert_other (new r : Row) (t : list Row) :
  row_ok S new = true -> table_ok S t = true ->
  In r t -> conflicts key new r = false -> In r (upsert new t).
Proof.
  intros Hn Ht Hin Hc. rewrite (upsert_spec new t Hn Ht).
  destruct (existsb (conflicts key new) t) eqn:E.
  - apply in_map_iff. exists r. now rewrite Hc.
  - apply in_or_app. now left.
Qed.

(** Every row afterwards is the proposed one or an old one with another key. *)
Lemma upsert_inv (new r : Row) (t : list Row) :
  row_ok S new = true -> table_ok S t = true ->
  In r (upsert new t) ->
  r = new \/ (In r t /\ conflicts key new r = false).
Proof.
  intros Hn Ht. rewrite (upsert_spec new t Hn Ht).
  destruct (existsb (conflicts key new) t) eqn:E.
  - intros Hin. apply in_map_iff in Hin as (old & <- & Hin).
    destruct (conflicts key new old) eqn:Ec; auto.
  - intros Hin. apply in_app_or in Hin as [Hin | [<- | []]]; auto.
    right. split; [exact Hin|].
    destruct (conflicts key new r) eqn:Ec; [|reflexivity].
    assert (existsb (conflicts key new) t = true); [|congruence].
    apply existsb_exists. now exists r.
Qed.

(** Two rows of a well-formed table that conflict are the same row. *)
Lemma table_ok_conflict (t : list Row) (a b : Row) :
  table_ok S t = true -> In a t -> In b t ->
  conflicts key a b = true -> a = b.
Proof.
  intros Ht. apply table_ok_spec in Ht as [Hall Hnd].
  induction t as [|r t IH]; simpl; [contradiction|].
  inversion Hall as [|? ? Hr Hall']; subst.
  inversion Hnd as [|? ? Hnotin Hnd']; subst.
  intros [<- | Ha] [<- | Hb] Hc; auto.
  - exfalso. apply Hnotin. apply (conflicts_key _ _ Hr) in Hc. rewrite Hc.
    now apply in_map.
  - exfalso. apply Hnotin.
    rewrite conflicts_sym in Hc. apply (conflicts_key _ _ Hr) in Hc.
    rewrite Hc. now apply in_map.
Qed.

(** Proposing a row that is already stored changes nothing. *)
Lemma upsert_same (new : Row) (t : list Row) :
  table_ok S t = true -> In new t -> upsert new t = t.
Proof.
  intros Ht Hin.
  assert (Hn : row_ok S new = true).
  { pose proof Ht as Ht'. apply table_ok_spec in Ht' as [Hall _].
    rewrite Forall_forall in Hall. auto. }
  rewrite (upsert_spec new t Hn Ht).
  assert (E : existsb (conflicts key new) t = true).
  { apply existsb_exists. exists new. split; [exact Hin|].
    now apply conflicts_refl. }
  rewrite E. rewrite <- (map_id t) at 2. apply map_ext_in. intros old Ho.
  destruct (conflicts key new old) eqn:Ec; [|reflexivity].
  now apply (table_ok_conflict t).
Qed.

Lemma filter_no_conflict (t : list Row) (a : Row) :
  row_ok S a = true -> ~ In (key_of key a) (map (key_of key) t) ->
  filter (conflicts key a) t = [].
Proof.
  intros Ha. induction t as [|x t IH]; simpl; [reflexivity|].
  intros Hnotin. destruct (conflicts key a x) eqn:Ec.
  - exfalso. apply Hnotin. apply (conflicts_key _ _ Ha) in Ec. now left.
  - apply IH. intros H. apply Hnotin. now right.
Qed.

(** The rows of a stored row's key: that row alone. *)
Lemma filter_conflicts (t : list Row) (a : Row) :
  table_ok S t = true -> In a t -> filter (conflicts key a) t = [a].
Proof.
  intros Ht. apply table_ok_spec in Ht as [Hall Hnd].
  induction t as [|r t IH]; simpl; [contradiction|].
  inversion Hall as [|? ? Hr Hall']; subst.
  inversion Hnd as [|? ? Hnotin Hnd']; subst.
  intros [<- | Ha].
  - rewrite (conflicts_refl _ Hr). f_equal. now apply filter_no_conflict.
  - destruct (conflicts key a r) eqn:Ec.
    + exfalso. apply Hnotin.
      rewrite conflicts_sym in Ec. apply (conflicts_key _ _ Hr) in Ec.
      rewrite Ec. now apply in_map.
    + now apply IH.
Qed.

Lemma upsert_length (new : Row) (t : list Row) :
  row_ok S new = true -> table_ok S t = true ->
  existsb (conflicts key new) t = true ->
  List.length (upsert new t) = List.length t.
Proof.
  intros Hn Ht E. rewrite (upsert_spec new t Hn Ht), E. apply length_map.
Qed.

Lemma upsert_all_ok (rows : list Row) (t : list Row) :
  Forall (fun r => row_ok S r = true) rows -> table_ok S t = true ->
  table_ok S (upsert_all rows t) = true.
Proof.
  intros Hrows. revert t. induction Hrows as [|r rows Hr _ IH]; simpl; auto.
  intros t Ht. apply IH. now apply upsert_ok.
Qed.

(** A stored row stays through a batch none of whose rows has its key. *)
Lemma upsert_all_keeps (rows : list Row) (t : list Row) (r : Row) :
  Forall (fun r => row_ok S r = true) rows -> table_ok S t = true ->
  In r t -> (forall r', In r' rows -> conflicts key r' r = false) ->
  In r (upsert_all rows t).
Proof.
  intros Hrows. revert t. induction Hrows as [|r0 rows Hr0 _ IH]; simpl; auto.
  intros t Ht Hin Hnc. apply IH.
  - now apply upsert_ok.
  - apply upsert_other; auto.
  - intros r' Hr'. apply Hnc. now right.
Qed.

(** After a batch of rows with distinct keys, every one of them is stored. *)
Lemma upsert_all_in (rows : list Row) (t : list Row) (r : Row) :
  Forall (fun r => row_ok S r = true) rows ->
  NoDup (map (key_of key) rows) -> table_ok S t = true ->
  In r rows -> In r (upsert_all rows t).
Proof.
  intros Hrows. revert t. induction Hrows as [|r0 rows Hr0 Hrows IH]; simpl;
    [contradiction|].
  intros t Hnd Ht [<- | Hin].
  - inversion Hnd as [|? ? Hnotin Hnd']; subst.
    apply upsert_all_keeps; auto.
    + now apply upsert_ok.
    + now apply upsert_in.
    + intros r' Hr'. destruct (conflicts key r' r0) eqn:Ec; [|reflexivity].
      exfalso. apply Hnotin. rewrite conflicts_sym in Ec.
      apply (conflicts_key _ _ Hr0) in Ec. rewrite Ec. now apply in_map.
  - inversion Hnd; subst. apply IH; auto. now apply upsert_ok.
Qed.

(** A batch of rows that are all stored already changes nothing. *)
Lemma upsert_all_same (rows : list Row) (t : list Row) :
  table_ok S t = true -> (forall r, In r rows -> In r t) ->
  upsert_all rows t = t.
Proof.
  intros Ht. induction rows as [|r rows IH]; simpl; [reflexivity|].
  intros Hin. rewrite (upsert_same r t Ht); [|apply Hin; now left].
  apply IH. intros r' Hr'. apply Hin. now right.
Qed.

End Upsert.

(* ================================================================== *)
(** ** The two tables of the application *)

Lemma harian_columns_distinct :
  NoDup (map fst (columns estimasi_harian_schema)).
Proof.
  simpl. repeat (constructor; [simpl; intuition discriminate|]). constructor.
Qed.

Lemma harian_key_columns (c : string) :
  In c (primary_key estimasi_harian_schema) ->
  exists ty, In (c, ty) (columns estimasi_harian_schema)
             /\ (ty = DATE \/ ty = TEXT).
Proof.
  simpl. intros [<- | []]. exists DATE. simpl. auto.
Qed.

Lemma harian_update_covers (c : string) :
  In c (map fst (columns estimasi_harian_schema)) ->
  In c (primary_key estimasi_harian_schema) \/ In c update_set.
Proof.
  simpl. intros H.
  repeat (destruct H as [<- | H]; [auto 20|]). contradiction.
Qed.

Lemma metadata_columns_distinct :
  NoDup (map fst (columns estimasi_metadata_schema)).
Proof.
  simpl. repeat (constructor; [simpl; intuition discriminate|]). constructor.
Qed.

Lemma metadata_key_columns (c : string) :
  In c (primary_key estimasi_metadata_schema) ->
  exists ty, In (c, ty) (columns estimasi_metadata_schema)
             /\ (ty = DATE \/ ty = TEXT).
Proof.
  simpl. intros [<- | [<- | []]]; [exists DATE | exists TEXT]; simpl; auto.
Qed.

Lemma metadata_update_covers (c : string) :
  In c (map fst (columns estimasi_metadata_schema)) ->
  In c (primary_key estimasi_metadata_schema)
  \/ In c ["fitur"; "tanggal_fitur"].
Proof.
  simpl. intros H.
  repeat (destruct H as [<- | H]; [auto 20|]). contradiction.
Qed.

Lemma float_or_none_type (o : option float) :
  has_type (float_or_none o) FLOAT = true.
Proof. destruct o; reflexivity. Qed.

(** The proposed daily row fits the table. *)
Lemma harian_row_ok (p : PayloadAggregat) :
  row_ok estimasi_harian_schema (harian_row p) = true.
Proof.
  unfold row_ok, harian_row, values. cbn.
  now rewrite !float_or_none_type.
Qed.

Lemma harian_row_date (p : PayloadAggregat) :
  col "tanggal" (harian_row p) = VDate (tanggal p).
Proof. reflexivity. Qed.

(** Conflicting with the proposed daily row is having its date. *)
Lemma harian_conflicts (p : PayloadAggregat) (r : Row) :
  conflicts ["tanggal"] (harian_row p) r
  = sql_eqb (col "tanggal" r) (VDate (tanggal p)).
Proof.
  unfold conflicts. cbn [forallb]. rewrite andb_true_r, harian_row_date.
  apply sql_eqb_sym.
Qed.

Section IngestFacts.

Variable json_dumps : Dict string -> string.

Lemma meta_rows_items (p : PayloadAggregat) :
  meta_rows json_dumps p =
  map (fun kec_meta : string * Dict string =>
         [VDate (tanggal p); VStr (fst kec_meta);
          VStr (json_dumps []); VStr (json_dumps (snd kec_meta))])
      (fitur_items p).
Proof.
  unfold meta_rows, fitur_items.
  destruct (tanggal_fitur p) as [[|x tf]|]; reflexivity.
Qed.

Lemma meta_rows_length (p : PayloadAggregat) :
  List.length (meta_rows json_dumps p) = List.length (fitur_items p).
Proof. rewrite meta_rows_items. apply length_map. Qed.

(** Every proposed metadata row fits the table. *)
Lemma metadata_rows_ok (p : PayloadAggregat) :
  Forall (fun r => row_ok estimasi_metadata_schema r = true)
         (map metadata_row (meta_rows json_dumps p)).
Proof.
  rewrite meta_rows_items, map_map. apply Forall_forall. intros r Hr.
  apply in_map_iff in Hr as (x & <- & _). reflexivity.
Qed.

(** The keys of the proposed metadata rows are distinct, as the keys of the
    dict are. *)
Lemma metadata_rows_keys (p : PayloadAggregat) :
  dict_ok (fitur_items p) ->
  NoDup (map (key_of ["tanggal"; "kecamatan"])
             (map metadata_row (meta_rows json_dumps p))).
Proof.
  rewrite meta_rows_items, !map_map. unfold dict_ok.
  rewrite distinct_NoDup.
  induction (fitur_items p) as [|[kec meta] tf IH]; simpl; intros Hnd;
    [constructor|].
  inversion Hnd as [|? ? Hnotin Hnd']; subst. constructor; auto.
  intros Hin. apply in_map_iff in Hin as ([kec' meta'] & Heq & Hin).
  apply Hnotin. cbn in Heq. inversion Heq; subst.
  now apply (in_map fst) in Hin.
Qed.

(** The result of [ingest]: the first storage error as a 500 with its text,
    or the confirmation. *)
Lemma ingest_result (p : PayloadAggregat) (F : Faults) (db : Database) :
  result (ingest json_dumps p F db) =
  match first_fault F (ingest_calls (meta_rows json_dumps p)) with
  | Some e => HTTPException 500 (str e)
  | None =>
      Return (VDict [("status", VStr "ok");
                     ("upserted", VStr "estimasi_harian");
                     ("meta_rows",
                      VInt (Z.of_nat (List.length (meta_rows json_dumps p))))])
  end.
Proof.
  unfold ingest, with_get_conn, bind, execute_values, execute, ret.
  destruct (meta_rows json_dumps p) as [|row rows]; simpl;
    destruct (F Connect); simpl; try reflexivity;
    destruct (F (Execute 0%nat)); simpl; try reflexivity;
    try (destruct (F (Execute 1%nat)); simpl; try reflexivity);
    destruct (F Commit); reflexivity.
Qed.

Lemma fold_left_map_arg {A B C : Type} (f : A -> C -> A) (g : B -> C)
    (l : list B) (a : A) :
  fold_left (fun a b => f a (g b)) l a = fold_left f (map g l) a.
Proof.
  revert a. induction l as [|b l IH]; simpl; auto.
Qed.

(** The stored database after [ingest]: untouched after an error, both
    statements applied otherwise. *)
Lemma ingest_store (p : PayloadAggregat) (F : Faults) (db : Database) :
  store (ingest json_dumps p F db) =
  match first_fault F (ingest_calls (meta_rows json_dumps p)) with
  | Some _ => db
  | None => upserted json_dumps p db
  end.
Proof.
  unfold upserted. rewrite <- (fold_left_map_arg
    (fun t r => insert_on_conflict_do_update ["tanggal"; "kecamatan"]
                  ["fitur"; "tanggal_fitur"] r t) metadata_row).
  unfold ingest, with_get_conn, bind, execute_values, execute, ret.
  destruct (meta_rows json_dumps p) as [|row rows]; simpl;
    destruct (F Connect); simpl; try reflexivity;
    destruct (F (Execute 0%nat)); simpl; try reflexivity;
    try (destruct (F (Execute 1%nat)); simpl; try reflexivity);
    destruct (F Commit); reflexivity.
Qed.

Lemma ingest_returned (p : PayloadAggregat) (F : Faults) (db : Database) :
  returned (ingest json_dumps p F db) = true <->
  first_fault F (ingest_calls (meta_rows json_dumps p)) = None.
Proof.
  unfold returned. rewrite ingest_result.
  destruct (first_fault F _); split; congruence.
Qed.

Lemma ingest_returned_store (p : PayloadAggregat) (F : Faults)
    (db : Database) :
  returned (ingest json_dumps p F db) = true ->
  store (ingest json_dumps p F db) = upserted json_dumps p db.
Proof.
  intros H. apply ingest_returned in H. now rewrite ingest_store, H.
Qed.

Lemma db_ok_tables (db : Database) :
  db_ok db <->
  table_ok estimasi_harian_schema (estimasi_harian db) = true
  /\ table_ok estimasi_metadata_schema (estimasi_metadata db) = true.
Proof. unfold db_ok. apply andb_true_iff. Qed.

(** Both statements keep the database well formed. *)
Lemma upserted_ok (p : PayloadAggregat) (db : Database) :
  db_ok db -> db_ok (upserted json_dumps p db).
Proof.
  rewrite !db_ok_tables. intros [Hh Hm]. split; simpl.
  - apply (upsert_ok estimasi_harian_schema update_set
             harian_columns_distinct harian_key_columns
             harian_update_covers); auto using harian_row_ok.
  - apply (upsert_all_ok estimasi_metadata_schema ["fitur"; "tanggal_fitur"]
             metadata_columns_distinct metadata_key_columns
             metadata_update_covers); auto using metadata_rows_ok.
Qed.

Lemma ingest_db_ok (p : PayloadAggregat) (F : Faults) (db : Database) :
  db_ok db -> db_ok (store (ingest json_dumps p F db)).
Proof.
  intros H. rewrite ingest_store. destruct (first_fault F _); auto.
  now apply upserted_ok.
Qed.

End IngestFacts.

(* ================================================================== *)
(** ** Ingest: overwrite and idempotence *)

Lemma rows_of_date_conflicts (p : PayloadAggregat) (t : list Row) :
  rows_of_date (tanggal p) t = filter (conflicts ["tanggal"] (harian_row p)) t.
Proof.
  unfold rows_of_date. apply filter_ext. intros r.
  now rewrite harian_conflicts.
Qed.

Lemma has_date_conflicts (p : PayloadAggregat) (t : list Row) :
  has_date (tanggal p) t = existsb (conflicts ["tanggal"] (harian_row p)) t.
Proof.
  unfold has_date. induction t as [|r t IH]; cbn [existsb]; [reflexivity|].
  now rewrite IH, harian_conflicts.
Qed.

(** After both statements the table has one row for the payload's date:
    the proposed row. *)
Lemma upserted_rows_of_date (json_dumps : Dict string -> string)
    (p : PayloadAggregat) (db : Database) :
  db_ok db ->
  rows_of_date (tanggal p) (estimasi_harian (upserted json_dumps p db))
  = [harian_row p].
Proof.
  intros Hdb. pose proof (upserted_ok json_dumps p db Hdb) as Hok.
  apply db_ok_tables in Hok as [Hh _]. apply db_ok_tables in Hdb as [Hh0 _].
  rewrite rows_of_date_conflicts.
  apply (filter_conflicts estimasi_harian_schema
           harian_columns_distinct harian_key_columns); [exact Hh|].
  apply (upsert_in estimasi_harian_schema update_set
           harian_columns_distinct harian_key_columns harian_update_covers);
    auto using harian_row_ok.
Qed.

(** What the proposed row holds in the area columns. *)
Lemma harian_row_area (p : PayloadAggregat) (area column : string) :
  In (area, column) kolom_map ->
  col column (harian_row p) = float_or_none (dict_get (estimasi p) area).
Proof.
  simpl. intros H.
  repeat (destruct H as [H | H]; [inversion H; reflexivity|]).
  contradiction.
Qed.

(** C1: ingesting a payload for a date that already has a row replaces that
    row by the payload's values in every column: the table keeps its size,
    the one row of the date is the proposed row, whose city and city average
    are the payload's and whose area columns hold the payload's estimate or,
    for an area absent from the estimate map, NULL; the rows of other dates
    stay. *)
Theorem ingest_overwrites_row (json_dumps : Dict string -> string)
    (p : PayloadAggregat) (F : Faults) (db : Database) :
  db_ok db ->
  has_date (tanggal p) (estimasi_harian db) = true ->
  returned (ingest json_dumps p F db) = true ->
  let t' := estimasi_harian (store (ingest json_dumps p F db)) in
  rows_of_date (tanggal p) t' = [harian_row p]
  /\ List.length t' = List.length (estimasi_harian db)
  /\ col "kota" (harian_row p) = VStr (kota p)
  /\ col "rata_rata_kota" (harian_row p) = VFloat (rata_rata_kota p)
  /\ (forall area column, In (area, column) kolom_map ->
        col column (harian_row p)
        = float_or_none (dict_get (estimasi p) area))
  /\ (forall r, In r (estimasi_harian db) ->
        sql_eqb (col "tanggal" r) (VDate (tanggal p)) = false -> In r t').
Proof.
  intros Hdb Hhas Hret t'. subst t'.
  rewrite (ingest_returned_store json_dumps p F db Hret).
  pose proof Hdb as Hdb'. apply db_ok_tables in Hdb' as [Hh _].
  split; [now apply upserted_rows_of_date|].
  split.
  { apply (upsert_length estimasi_harian_schema update_set
             harian_columns_distinct harian_key_columns harian_update_covers);
      auto using harian_row_ok.
    now rewrite <- has_date_conflicts. }
  split; [reflexivity|]. split; [reflexivity|].
  split; [apply harian_row_area|].
  intros r Hin Hne.
  apply (upsert_other estimasi_harian_schema update_set
           harian_columns_distinct harian_key_columns harian_update_covers);
    auto using harian_row_ok.
  change (conflicts ["tanggal"] (harian_row p) r = false).
  now rewrite harian_conflicts.
Qed.

(** Areas {Beji: 1} for 2024-01-01, then {Cinere: 2} for the same date:
    the row holds NULL for Beji and 2 for Cinere. *)
Lemma ingest_overwrites_row_witness :
  let json_dumps := fun _ : Dict string => "{}" in
  let p1 := {| tanggal := 738886; kota := "Depok";
               estimasi := [("Beji", 1%float)]; rata_rata_kota := 1%float;
               tanggal_fitur := None |} in
  let p2 := {| tanggal := 738886; kota := "Depok";
               estimasi := [("Cinere", 2%float)]; rata_rata_kota := 2%float;
               tanggal_fitur := None |} in
  let db1 := store (ingest json_dumps p1 no_faults empty_db) in
  let t2 := estimasi_harian (store (ingest json_dumps p2 no_faults db1)) in
  col "beji" (harian_row p1) = VFloat 1
  /\ rows_of_date 738886 t2 = [harian_row p2]
  /\ col "beji" (harian_row p2) = VNone
  /\ col "cinere" (harian_row p2) = VFloat 2.
Proof.
  intros json_dumps p1 p2 db1 t2.
  assert (Hdb : db_ok db1) by reflexivity.
  assert (Hhas : has_date (tanggal p2) (estimasi_harian db1) = true)
    by reflexivity.
  assert (Hret : returned (ingest json_dumps p2 no_faults db1) = true)
    by reflexivity.
  destruct (ingest_overwrites_row json_dumps p2 no_faults db1 Hdb Hhas Hret)
    as (Hrows & _ & _ & _ & Harea & _).
  split; [reflexivity|]. split; [exact Hrows|]. split.
  - apply (Harea "Beji" "beji"). simpl. auto.
  - apply (Harea "Cinere" "cinere"). simpl. auto 10.
Defined.

Lemma metadata_conflicts (d : Z) (kec a b : string) (r : Row) :
  conflicts ["tanggal"; "kecamatan"]
            (metadata_row [VDate d; VStr kec; VStr a; VStr b]) r
  = sql_eqb (col "tanggal" r) (VDate d)
    && sql_eqb (col "kecamatan" r) (VStr kec).
Proof.
  unfold conflicts. cbn [forallb]. rewrite andb_true_r.
  rewrite (sql_eqb_sym (col "tanggal" r)), (sql_eqb_sym (col "kecamatan" r)).
  reflexivity.
Qed.

(** After both statements every item of [tanggal_fitur] has its one
    metadata row, for the payload's date and the item's area. *)
Lemma upserted_rows_of_area (json_dumps : Dict string -> string)
    (p : PayloadAggregat) (db : Database) (kec : string) (meta : Dict string) :
  db_ok db -> dict_ok (fitur_items p) -> In (kec, meta) (fitur_items p) ->
  rows_of_area (tanggal p) kec (estimasi_metadata (upserted json_dumps p db))
  = [metadata_row [VDate (tanggal p); VStr kec;
                   VStr (json_dumps []); VStr (json_dumps meta)]].
Proof.
  intros Hdb Hdict Hin.
  pose proof (upserted_ok json_dumps p db Hdb) as Hok.
  apply db_ok_tables in Hok as [_ Hm1]. apply db_ok_tables in Hdb as [_ Hm].
  unfold rows_of_area.
  rewrite (filter_ext _ _
             (fun r => eq_sym (metadata_conflicts (tanggal p) kec
                                 (json_dumps []) (json_dumps meta) r))).
  apply (filter_conflicts estimasi_metadata_schema
           metadata_columns_distinct metadata_key_columns); [exact Hm1|].
  apply (upsert_all_in estimasi_metadata_schema
           ["fitur"; "tanggal_fitur"] metadata_columns_distinct
           metadata_key_columns metadata_update_covers);
    auto using metadata_rows_ok, metadata_rows_keys.
  rewrite meta_rows_items, map_map. apply in_map_iff.
  exists (kec, meta). split; [reflexivity|exact Hin].
Qed.

(** C2: ingesting the same payload a second time leaves the stored database
    as the first ingest left it.  It then holds one row for the payload's
    date, whose columns are the payload's date, city, city average and, for
    each recognized area, the payload's estimate (NULL without one), and one
    metadata row for each key of [tanggal_fitur], holding that key's
    metadata. *)
Theorem ingest_idempotent (json_dumps : Dict string -> string)
    (p : PayloadAggregat) (F1 F2 : Faults) (db : Database) :
  db_ok db ->
  dict_ok (fitur_items p) ->
  returned (ingest json_dumps p F1 db) = true ->
  returned (ingest json_dumps p F2 (store (ingest json_dumps p F1 db))) = true ->
  let db1 := store (ingest json_dumps p F1 db) in
  let db2 := store (ingest json_dumps p F2 db1) in
  let est := fun area => float_or_none (dict_get (estimasi p) area) in
  db2 = db1
  /\ rows_of_date (tanggal p) (estimasi_harian db2)
     = [[("tanggal", VDate (tanggal p)); ("kota", VStr (kota p));
         ("rata_rata_kota", VFloat (rata_rata_kota p));
         ("beji", est "Beji"); ("bojongsari", est "Bojongsari");
         ("cilodong", est "Cilodong"); ("cimanggis", est "Cimanggis");
         ("cinere", est "Cinere"); ("cipayung", est "Cipayung");
         ("limo", est "Limo"); ("pancoran_mas", est "Pancoran Mas");
         ("sawangan", est "Sawangan"); ("sukmajaya", est "Sukmajaya");
         ("tapos", est "Tapos")]]
  /\ List.length (rows_of_date (tanggal p) (estimasi_harian db2)) = 1%nat
  /\ (forall kec meta, In (kec, meta) (fitur_items p) ->
        rows_of_area (tanggal p) kec (estimasi_metadata db2)
        = [[("tanggal", VDate (tanggal p)); ("kecamatan", VStr kec);
            ("fitur", VStr (json_dumps []));
            ("tanggal_fitur", VStr (json_dumps meta))]]).
Proof.
  intros Hdb Hdict Hret1 Hret2 db1 db2 est. subst db1 db2 est.
  rewrite (ingest_returned_store json_dumps p F2 _ Hret2).
  rewrite (ingest_returned_store json_dumps p F1 db Hret1).
  pose proof (upserted_ok json_dumps p db Hdb) as Hok1.
  assert (Hsame : upserted json_dumps p (upserted json_dumps p db)
                  = upserted json_dumps p db).
  { pose proof Hok1 as Hok. apply db_ok_tables in Hok as [Hh1 Hm1].
    pose proof Hdb as Hdb'. apply db_ok_tables in Hdb' as [Hh Hm].
    transitivity
      {| estimasi_harian := estimasi_harian (upserted json_dumps p db);
         estimasi_metadata := estimasi_metadata (upserted json_dumps p db) |};
      [|reflexivity].
    unfold upserted at 1. f_equal.
    - apply (upsert_same estimasi_harian_schema update_set
               harian_columns_distinct harian_key_columns
               harian_update_covers); [exact Hh1|].
      apply (upsert_in estimasi_harian_schema update_set
               harian_columns_distinct harian_key_columns
               harian_update_covers); auto using harian_row_ok.
    - apply (upsert_all_same estimasi_metadata_schema
               ["fitur"; "tanggal_fitur"] metadata_columns_distinct
               metadata_key_columns metadata_update_covers); [exact Hm1|].
      intros r Hr.
      apply (upsert_all_in estimasi_metadata_schema
               ["fitur"; "tanggal_fitur"] metadata_columns_distinct
               metadata_key_columns metadata_update_covers);
        auto using metadata_rows_ok, metadata_rows_keys. }
  rewrite Hsame. split; [reflexivity|].
  rewrite (upserted_rows_of_date json_dumps p db Hdb).
  split; [reflexivity|]. split; [reflexivity|].
  intros kec meta Hin.
  now rewrite (upserted_rows_of_area json_dumps p db kec meta Hdb Hdict Hin).
Qed.

(** The same payload, with metadata for a recognized and an unrecognized
    area, ingested twice into the empty database. *)
Lemma ingest_idempotent_witness :
  let json_dumps := fun d : Dict string =>
                      match d with [] => "{}" | _ :: _ => "{...}" end in
  let p := {| tanggal := 738886; kota := "Depok";
              estimasi := [("Beji", 1%float); ("Margonda", 5%float);
                           ("Tapos", 0.1%float)];
              rata_rata_kota := 3%float;
              tanggal_fitur := Some [("Beji", [("aod", "2023-12-31")]);
                                     ("Margonda", [])] |} in
  let db1 := store (ingest json_dumps p no_faults empty_db) in
  let db2 := store (ingest json_dumps p no_faults db1) in
  db2 = db1
  /\ estimasi_harian db2
     = [[("tanggal", VDate 738886); ("kota", VStr "Depok");
         ("rata_rata_kota", VFloat 3);
         ("beji", VFloat 1); ("bojongsari", VNone); ("cilodong", VNone);
         ("cimanggis", VNone); ("cinere", VNone); ("cipayung", VNone);
         ("limo", VNone); ("pancoran_mas", VNone); ("sawangan", VNone);
         ("sukmajaya", VNone); ("tapos", VFloat 0.1)]]
  /\ rows_of_area 738886 "Beji" (estimasi_metadata db2)
     = [[("tanggal", VDate 738886); ("kecamatan", VStr "Beji");
         ("fitur", VStr "{}"); ("tanggal_fitur", VStr "{...}")]].
Proof.
  intros json_dumps p db1 db2.
  destruct (ingest_idempotent json_dumps p no_faults no_faults empty_db
              eq_refl eq_refl eq_refl eq_refl) as (Hsame & _ & _ & Hmeta).
  split; [exact Hsame|]. split; [reflexivity|].
  apply (Hmeta "Beji" [("aod", "2023-12-31")]). simpl. auto.
Defined.

(* ================================================================== *)
(** ** Ingest: validation, unknown areas, response, atomicity *)

(** C3: a request whose [estimasi] is empty fails validation, with the
    validator's error, and is answered with a client error (422), before any
    call on the database: the stored database is the same and no call was
    made, whatever the server would have done. *)
Theorem empty_estimasi_rejected (json_dumps : Dict string -> string)
    (errors : exn -> list value)
    (b : Body) (F : Faults) (db : Database) :
  body_estimasi b = [] ->
  let r := post_ingest json_dumps errors b F db in
  not_empty (body_estimasi b) = inr (Error "estimasi kosong")
  /\ status (result r) = 422
  /\ 400 <= status (result r) < 500
  /\ store r = db
  /\ trace r = [].
Proof.
  intros Hempty. unfold post_ingest, parse_body. rewrite Hempty. simpl.
  repeat split; lia.
Qed.

(** An empty estimate map, with metadata, sent to a server that holds a row
    and would refuse the connection. *)
Lemma empty_estimasi_rejected_witness :
  let json_dumps := fun _ : Dict string => "{}" in
  let errors := fun _ : exn => [] in
  let p := {| tanggal := 738886; kota := "Depok";
              estimasi := [("Beji", 1%float)]; rata_rata_kota := 1%float;
              tanggal_fitur := None |} in
  let db1 := store (ingest json_dumps p no_faults empty_db) in
  let F := fun _ : db_call => Some (Error "connection refused") in
  let b := {| body_tanggal := 738886; body_kota := None;
              body_estimasi := []; body_rata_rata_kota := 12%float;
              body_tanggal_fitur := Some [("Beji", [])] |} in
  let r := post_ingest json_dumps errors b F db1 in
  not_empty (body_estimasi b) = inr (Error "estimasi kosong")
  /\ status (result r) = 422
  /\ 400 <= status (result r) < 500
  /\ store r = db1
  /\ trace r = [].
Proof.
  intros json_dumps errors p db1 F b.
  apply (empty_estimasi_rejected json_dumps errors b F db1).
  reflexivity.
Defined.

(** The proposed daily row reads the estimate map at the eleven recognized
    names only. *)
Lemma values_known_only (p p' : PayloadAggregat) :
  tanggal p' = tanggal p -> kota p' = kota p ->
  rata_rata_kota p' = rata_rata_kota p ->
  (forall area column, In (area, column) kolom_map ->
     dict_get (estimasi p') area = dict_get (estimasi p) area) ->
  values p' = values p.
Proof.
  intros Ht Hk Hr Hest. unfold values. rewrite Ht, Hk, Hr. f_equal.
  apply map_ext_in. intros area Hin. apply in_map_iff in Hin.
  destruct Hin as ([area' column] & <- & Hin). simpl.
  now rewrite (Hest area' column Hin).
Qed.

(** C4: the estimate map matters at the eleven recognized names only, so a
    payload with further names is ingested exactly as the payload without
    them, and every key of [tanggal_fitur], recognized or not, has its one
    metadata row for (date, area) afterwards. *)
Theorem unknown_areas_ignored (json_dumps : Dict string -> string)
    (p p' : PayloadAggregat) (F : Faults) (db : Database) :
  db_ok db ->
  dict_ok (fitur_items p) ->
  tanggal p' = tanggal p -> kota p' = kota p ->
  rata_rata_kota p' = rata_rata_kota p ->
  tanggal_fitur p' = tanggal_fitur p ->
  (forall area column, In (area, column) kolom_map ->
     dict_get (estimasi p') area = dict_get (estimasi p) area) ->
  returned (ingest json_dumps p F db) = true ->
  harian_row p' = harian_row p
  /\ ingest json_dumps p' F db = ingest json_dumps p F db
  /\ returned (ingest json_dumps p' F db) = true
  /\ (forall kec meta, In (kec, meta) (fitur_items p) ->
        rows_of_area (tanggal p) kec
          (estimasi_metadata (store (ingest json_dumps p F db)))
        = [metadata_row [VDate (tanggal p); VStr kec;
                         VStr (json_dumps []); VStr (json_dumps meta)]]).
Proof.
  intros Hdb Hdict Ht Hk Hr Htf Hest Hret.
  pose proof (values_known_only p p' Ht Hk Hr Hest) as Hval.
  assert (Hmeta : meta_rows json_dumps p' = meta_rows json_dumps p).
  { unfold meta_rows. now rewrite Htf, Ht. }
  assert (Hing : ingest json_dumps p' F db = ingest json_dumps p F db).
  { unfold ingest. now rewrite Hval, Hmeta. }
  split; [unfold harian_row; now rewrite Hval|].
  split; [exact Hing|]. split; [now rewrite Hing|].
  intros kec meta Hin.
  rewrite (ingest_returned_store json_dumps p F db Hret).
  pose proof (upserted_ok json_dumps p db Hdb) as Hok.
  apply db_ok_tables in Hok as [_ Hm1]. apply db_ok_tables in Hdb as [_ Hm].
  unfold rows_of_area.
  rewrite (filter_ext _ _
             (fun r => eq_sym (metadata_conflicts (tanggal p) kec
                                 (json_dumps []) (json_dumps meta) r))).
  apply (filter_conflicts estimasi_metadata_schema
           metadata_columns_distinct metadata_key_columns); [exact Hm1|].
  apply (upsert_all_in estimasi_metadata_schema
           ["fitur"; "tanggal_fitur"] metadata_columns_distinct
           metadata_key_columns metadata_update_covers);
    auto using metadata_rows_ok, metadata_rows_keys.
  rewrite meta_rows_items, map_map. apply in_map_iff.
  exists (kec, meta). split; [reflexivity|exact Hin].
Qed.

(** Estimates for Beji and the unrecognized Margonda, metadata for both. *)
Lemma unknown_areas_ignored_witness :
  let json_dumps := fun d : Dict string =>
                      match d with [] => "{}" | _ :: _ => "{...}" end in
  let tf := Some [("Margonda", [("aod", "2023-12-31")]); ("Beji", [])] in
  let p := {| tanggal := 738886; kota := "Depok";
              estimasi := [("Beji", 1%float)]; rata_rata_kota := 3%float;
              tanggal_fitur := tf |} in
  let p' := {| tanggal := 738886; kota := "Depok";
               estimasi := [("Margonda", 5%float); ("Beji", 1%float)];
               rata_rata_kota := 3%float; tanggal_fitur := tf |} in
  ingest json_dumps p' no_faults empty_db = ingest json_dumps p no_faults empty_db
  /\ returned (ingest json_dumps p' no_faults empty_db) = true
  /\ rows_of_area 738886 "Margonda"
       (estimasi_metadata (store (ingest json_dumps p no_faults empty_db)))
     = [[("tanggal", VDate 738886); ("kecamatan", VStr "Margonda");
         ("fitur", VStr "{}"); ("tanggal_fitur", VStr "{...}")]].
Proof.
  intros json_dumps tf p p'.
  assert (Hest : forall area column, In (area, column) kolom_map ->
            dict_get (estimasi p') area = dict_get (estimasi p) area).
  { simpl. intros area column H.
    repeat (destruct H as [H | H]; [inversion H; reflexivity|]).
    contradiction. }
  destruct (unknown_areas_ignored json_dumps p p' no_faults empty_db
              eq_refl eq_refl eq_refl eq_refl eq_refl eq_refl Hest eq_refl)
    as (_ & Hsame & Hret & Hrows).
  split; [exact Hsame|]. split; [exact Hret|].
  apply (Hrows "Margonda" [("aod", "2023-12-31")]). simpl. auto.
Defined.

(** C9: a successful ingest returns the confirmation with the number of
    keys of [tanggal_fitur] (0 when it is absent or empty), which is the
    number of metadata rows proposed; these rows are then stored, one per
    key. *)
Theorem ingest_response (json_dumps : Dict string -> string)
    (p : PayloadAggregat) (F : Faults) (db : Database) :
  returned (ingest json_dumps p F db) = true ->
  let n := List.length (fitur_items p) in
  result (ingest json_dumps p F db)
  = Return (VDict [("status", VStr "ok");
                   ("upserted", VStr "estimasi_harian");
                   ("meta_rows", VInt (Z.of_nat n))])
  /\ List.length (meta_rows json_dumps p) = n
  /\ (tanggal_fitur p = None -> n = 0%nat)
  /\ (tanggal_fitur p = Some [] -> n = 0%nat)
  /\ (db_ok db -> dict_ok (fitur_items p) ->
      NoDup (map metadata_row (meta_rows json_dumps p))
      /\ forall args, In args (meta_rows json_dumps p) ->
           In (metadata_row args)
              (estimasi_metadata (store (ingest json_dumps p F db)))).
Proof.
  intros Hret n. subst n. pose proof Hret as Hnone.
  apply ingest_returned in Hnone.
  rewrite ingest_result, Hnone, meta_rows_length.
  split; [reflexivity|]. split; [reflexivity|].
  unfold fitur_items.
  split; [now intros ->|]. split; [now intros ->|].
  intros Hdb Hdict. split.
  - apply (NoDup_map_inv (key_of ["tanggal"; "kecamatan"])).
    now apply metadata_rows_keys.
  - intros args Hin.
    rewrite (ingest_returned_store json_dumps p F db Hret).
    apply db_ok_tables in Hdb as [_ Hm].
    apply (upsert_all_in estimasi_metadata_schema
             ["fitur"; "tanggal_fitur"] metadata_columns_distinct
             metadata_key_columns metadata_update_covers);
      auto using metadata_rows_ok, metadata_rows_keys.
    now apply in_map.
Qed.

(** Metadata for two areas: [meta_rows] is 2. *)
Lemma ingest_response_witness :
  let json_dumps := fun _ : Dict string => "{}" in
  let p := {| tanggal := 738886; kota := "Depok";
              estimasi := [("Beji", 1%float)]; rata_rata_kota := 3%float;
              tanggal_fitur := Some [("Margonda", []); ("Beji", [])] |} in
  result (ingest json_dumps p no_faults empty_db)
  = Return (VDict [("status", VStr "ok");
                   ("upserted", VStr "estimasi_harian");
                   ("meta_rows", VInt 2)]).
Proof.
  intros json_dumps p.
  exact (proj1 (ingest_response json_dumps p no_faults empty_db eq_refl)).
Defined.

(** C10: an ingest that does not return leaves the stored database as it
    was, daily table and metadata table alike, and ends in the 500 of the
    handler; in particular when the error is that of the metadata batch,
    after the daily upsert was executed. *)
Theorem ingest_atomic (json_dumps : Dict string -> string)
    (p : PayloadAggregat) (F : Faults) (db : Database) :
  returned (ingest json_dumps p F db) = false ->
  store (ingest json_dumps p F db) = db
  /\ (exists e, first_fault F (ingest_calls (meta_rows json_dumps p)) = Some e
                /\ result (ingest json_dumps p F db)
                   = HTTPException 500 (str e))
  /\ (forall e, F Connect = None -> F (Execute 0) = None ->
                F (Execute 1) = Some e -> meta_rows json_dumps p <> [] ->
                result (ingest json_dumps p F db) = HTTPException 500 (str e)
                /\ In (Execute 0) (trace (ingest json_dumps p F db))
                /\ estimasi_harian (store (ingest json_dumps p F db))
                   = estimasi_harian db).
Proof.
  intros Hret. unfold returned in Hret.
  pose proof (ingest_result json_dumps p F db) as Hres.
  pose proof (ingest_store json_dumps p F db) as Hst.
  destruct (first_fault F (ingest_calls (meta_rows json_dumps p)))
    as [e|] eqn:Hff.
  - split; [exact Hst|]. split; [now exists e|].
    intros e1 Hc He0 He1 Hrows. rewrite Hst. split; [|split; [|reflexivity]].
    + rewrite Hres. destruct (meta_rows json_dumps p); [contradiction|].
      simpl in Hff. rewrite Hc, He0, He1 in Hff. congruence.
    + unfold ingest, with_get_conn, bind, execute_values, execute, ret.
      destruct (meta_rows json_dumps p); [contradiction|].
      simpl. rewrite Hc. simpl. rewrite He0. simpl. rewrite He1. simpl. auto.
  - rewrite Hres in Hret. discriminate.
Qed.

(** The metadata batch fails after the daily upsert was executed. *)
Lemma ingest_atomic_witness :
  let json_dumps := fun _ : Dict string => "{}" in
  let F := fun c => match c with
                    | Execute 1 => Some (Error "deadlock detected")
                    | _ => None
                    end in
  let p := {| tanggal := 738886; kota := "Depok";
              estimasi := [("Beji", 1%float)]; rata_rata_kota := 3%float;
              tanggal_fitur := Some [("Beji", [])] |} in
  trace (ingest json_dumps p F empty_db)
  = [Connect; Execute 0; Execute 1; Rollback]
  /\ result (ingest json_dumps p F empty_db)
     = HTTPException 500 "deadlock detected"
  /\ store (ingest json_dumps p F empty_db) = empty_db.
Proof.
  intros json_dumps F p.
  split; [reflexivity|]. split; [reflexivity|].
  exact (proj1 (ingest_atomic json_dumps p F empty_db eq_refl)).
Defined.

(* ================================================================== *)
(** ** ORDER BY tanggal DESC and LIMIT *)

Lemma insert_desc_perm (c : string) (r : Row) (l : list Row) :
  Permutation (insert_desc c r l) (r :: l).
Proof.
  induction l as [|x l IH]; simpl; [apply Permutation_refl|].
  destruct (sql_leb (col c x) (col c r)); [apply Permutation_refl|].
  apply perm_trans with (x :: r :: l); [now apply perm_skip | apply perm_swap].
Qed.

(** The sorted rows are the rows of the table. *)
Lemma order_by_desc_perm (c : string) (t : list Row) :
  Permutation (order_by_desc c t) t.
Proof.
  induction t as [|r t IH]; simpl; [constructor|].
  apply perm_trans with (r :: order_by_desc c t);
    [apply insert_desc_perm | now apply perm_skip].
Qed.

Lemma not_after_leb (a b : Row) :
  dated a -> dated b ->
  not_after a b <-> sql_leb (col "tanggal" b) (col "tanggal" a) = true.
Proof.
  intros [x Hx] [y Hy]. unfold not_after. rewrite Hx, Hy. simpl.
  rewrite Z.leb_le. split.
  - intros (x' & y' & Ex & Ey & Hle). congruence.
  - intros Hle. now exists x, y.
Qed.

Lemma not_after_trans (a b c : Row) :
  not_after a b -> not_after b c -> not_after a c.
Proof.
  intros (x & y & Hx & Hy & Hxy) (y' & z & Hy' & Hz & Hyz).
  exists x, z. repeat split; auto. rewrite Hy in Hy'. inversion Hy'. lia.
Qed.

Lemma insert_desc_sorted (r : Row) (l : list Row) :
  dated r -> Forall dated l -> StronglySorted not_after l ->
  StronglySorted not_after (insert_desc "tanggal" r l).
Proof.
  intros Hr Hl Hs. induction l as [|x l IH]; simpl.
  - repeat constructor.
  - inversion Hl as [|? ? Hx Hl']; subst.
    apply StronglySorted_inv in Hs as [Hs Hxl].
    destruct (sql_leb (col "tanggal" x) (col "tanggal" r)) eqn:E.
    + apply (not_after_leb r x Hr Hx) in E.
      constructor; [constructor; auto|]. constructor; [exact E|].
      rewrite Forall_forall in *. intros y Hy.
      apply (not_after_trans r x y); auto.
    + constructor; [now apply IH|].
      apply (Permutation_Forall (Permutation_sym (insert_desc_perm _ r l))).
      constructor; [|exact Hxl].
      destruct Hr as [a Ha], Hx as [b Hb]. rewrite Ha, Hb in E. simpl in E.
      apply Z.leb_gt in E. exists b, a. repeat split; auto. lia.
Qed.

(** The sorted rows are in descending order of date. *)
Lemma order_by_desc_sorted (t : list Row) :
  Forall dated t -> StronglySorted not_after (order_by_desc "tanggal" t).
Proof.
  induction 1 as [|r t Hr Ht IH]; simpl; [constructor|].
  apply insert_desc_sorted; auto.
  apply (Permutation_Forall (Permutation_sym (order_by_desc_perm _ t))).
  exact Ht.
Qed.

(** Rows of the daily table are dated. *)
Lemma harian_dated (r : Row) :
  row_ok estimasi_harian_schema r = true -> dated r.
Proof.
  intros Hr.
  pose proof (row_ok_key estimasi_harian_schema harian_columns_distinct
                harian_key_columns r Hr) as Hk.
  inversion Hk as [|? ? Hkv _]; subst.
  unfold row_ok in Hr. apply andb_prop in Hr as [Hty _].
  pose proof (typed_col r _ "tanggal" DATE Hty harian_columns_distinct
                (or_introl eq_refl)) as Hd.
  unfold dated. destruct (col "tanggal" r); simpl in *;
    try contradiction; try discriminate. now eexists.
Qed.

(** With distinct dates, descending is strictly descending. *)
Lemma sorted_strict (l : list Row) :
  NoDup (map (key_of ["tanggal"]) l) ->
  StronglySorted not_after l -> StronglySorted later l.
Proof.
  induction l as [|a l IH]; intros Hnd Hs; [constructor|].
  simpl in Hnd. inversion Hnd as [|? ? Hnotin Hnd']; subst.
  apply StronglySorted_inv in Hs as [Hs Hal]. constructor; [now apply IH|].
  rewrite Forall_forall in *. intros b Hb.
  destruct (Hal b Hb) as (x & y & Hx & Hy & Hle).
  exists x, y. repeat split; auto.
  assert (x <> y); [|lia]. intros ->. apply Hnotin.
  apply in_map_iff. exists b. split; [|exact Hb].
  unfold key_of. simpl. congruence.
Qed.

Lemma in_firstn {A : Type} (n : nat) (l : list A) (x : A) :
  In x (firstn n l) -> In x l.
Proof.
  revert n. induction l as [|a l IH]; intros [|n]; simpl; try contradiction.
  intros [Hx | Hx]; [now left | right; now apply (IH n)].
Qed.

Lemma firstn_sorted {A : Type} (R : A -> A -> Prop) (n : nat) (l : list A) :
  StronglySorted R l -> StronglySorted R (firstn n l).
Proof.
  intros Hs. revert n. induction Hs as [|a l Hs IH Hal]; intros [|n]; simpl;
    try constructor; auto.
  rewrite Forall_forall in *. intros x Hx. apply Hal.
  now apply (in_firstn n).
Qed.

(** In a sorted list, what [firstn] leaves out comes after what it keeps. *)
Lemma firstn_first {A : Type} (R : A -> A -> Prop) (n : nat) (l : list A)
    (x y : A) :
  StronglySorted R l -> In x (firstn n l) -> In y l -> ~ In y (firstn n l) ->
  R x y.
Proof.
  intros Hs. revert n. induction Hs as [|a l Hs IH Hal]; intros [|n]; simpl;
    try contradiction.
  intros [<- | Hx] [<- | Hy] Hnot.
  - exfalso. apply Hnot. now left.
  - rewrite Forall_forall in Hal. now apply Hal.
  - exfalso. apply Hnot. now left.
  - apply (IH n); auto.
Qed.

Lemma combine_project (cs : list string) (r : Row) :
  combine cs (project cs r) = map (fun c => (c, col c r)) cs.
Proof.
  unfold project. induction cs as [|c cs IH]; simpl; [reflexivity|].
  now rewrite IH.
Qed.

(** Selecting every column of a daily row gives the row back. *)
Lemma harian_select_all (r : Row) :
  row_ok estimasi_harian_schema r = true ->
  combine history_columns (project history_columns r) = r.
Proof.
  intros Hr. rewrite combine_project.
  pose proof (row_ok_names estimasi_harian_schema r Hr) as Hn.
  change (map fst (columns estimasi_harian_schema)) with history_columns in Hn.
  rewrite <- Hn. apply rebuild_row. rewrite Hn.
  exact harian_columns_distinct.
Qed.

Lemma no_query_faults (F : Faults) :
  first_fault F query_calls = None ->
  F Connect = None /\ F (Execute 0) = None /\ F Commit = None.
Proof.
  unfold query_calls. simpl.
  destruct (F Connect), (F (Execute 0)), (F Commit); try discriminate; auto.
Qed.

(** What a well-formed daily table gives when sorted. *)
Lemma harian_sorted (db : Database) :
  db_ok db ->
  let sorted := order_by_desc "tanggal" (estimasi_harian db) in
  Permutation sorted (estimasi_harian db)
  /\ Forall (fun r => row_ok estimasi_harian_schema r = true) sorted
  /\ StronglySorted not_after sorted
  /\ StronglySorted later sorted.
Proof.
  intros Hdb sorted. apply db_ok_tables in Hdb as [Hh _].
  apply (table_ok_spec estimasi_harian_schema harian_columns_distinct
           harian_key_columns) in Hh as [Hall Hnd].
  pose proof (order_by_desc_perm "tanggal" (estimasi_harian db)) as Hp.
  assert (Hd : Forall dated (estimasi_harian db)).
  { rewrite Forall_forall in *. intros r Hr. apply harian_dated. auto. }
  pose proof (order_by_desc_sorted _ Hd) as Hs.
  split; [exact Hp|]. split.
  { apply (Permutation_Forall (Permutation_sym Hp)). exact Hall. }
  split; [exact Hs|]. apply sorted_strict; [|exact Hs].
  apply (Permutation_NoDup (l := map (key_of ["tanggal"]) (estimasi_harian db)));
    [|exact Hnd].
  apply Permutation_map. now apply Permutation_sym.
Qed.

(* ================================================================== *)
(** ** The read endpoints *)

Lemma limit_rows_in_range (n : Z) (t : list Row) :
  0 <= n <= PG_INT64_MAX -> limit_rows n t = inl (firstn (Z.to_nat n) t).
Proof.
  intros [Hlo Hhi]. unfold limit_rows.
  destruct (Z.ltb_spec n 0); [lia|].
  destruct (Z.ltb_spec PG_INT64_MAX n); [lia|]. reflexivity.
Qed.

(** [history] when the server does not fail and accepts the count. *)
Lemma history_run (limit : Z) (F : Faults) (db : Database) :
  0 <= limit <= PG_INT64_MAX -> first_fault F query_calls = None ->
  history limit F db =
  {| result :=
       Return (VDict [("data",
         VList (map (fun r => VDict (combine history_columns r))
                    (map (project history_columns)
                         (firstn (Z.to_nat limit)
                            (order_by_desc "tanggal" (estimasi_harian db))))))]);
     store := db;
     trace := [Connect; Execute 0; Commit] |}.
Proof.
  intros Hlim HF. apply no_query_faults in HF as (Hc & He & Hm).
  unfold history, leave, with_get_conn, bind, execute, history_sql,
    description_names, fetchall, ret.
  rewrite Hc. cbn [view executed]. rewrite He.
  rewrite (limit_rows_in_range _ _ Hlim). cbn. rewrite Hm. reflexivity.
Qed.

(** [latest] when the server does not fail. *)
Lemma latest_run (F : Faults) (db : Database) :
  first_fault F query_calls = None ->
  latest F db =
  {| result :=
       Return (VDict [("data",
         match order_by_desc "tanggal" (estimasi_harian db) with
         | [] => VNone
         | r :: _ =>
             VDict (combine history_columns (project history_columns r))
         end)]);
     store := db;
     trace := [Connect; Execute 0; Commit] |}.
Proof.
  intros HF. apply no_query_faults in HF as (Hc & He & Hm).
  unfold latest, leave, with_get_conn, bind, execute, latest_sql,
    description_names, fetchone, ret.
  rewrite Hc. cbn [view executed]. rewrite He.
  rewrite (limit_rows_in_range 1); [|unfold PG_INT64_MAX; lia].
  change (Z.to_nat 1) with 1%nat.
  destruct (order_by_desc "tanggal" (estimasi_harian db)) as [|r rest];
    cbn; rewrite Hm; reflexivity.
Qed.

(** C6: [latest] has no parameter; on a server that does not fail it leaves
    the database as it is and returns, under "data", None when the table is
    empty and otherwise a stored row, as its column-to-value mapping, that no
    stored row is dated after. *)
Theorem latest_row (F : Faults) (db : Database) :
  db_ok db ->
  first_fault F query_calls = None ->
  store (latest F db) = db
  /\ (estimasi_harian db = [] ->
      result (latest F db) = Return (VDict [("data", VNone)]))
  /\ (estimasi_harian db <> [] ->
      exists r,
        In r (estimasi_harian db)
        /\ map fst r = history_columns
        /\ Forall (not_after r) (estimasi_harian db)
        /\ result (latest F db) = Return (VDict [("data", VDict r)])).
Proof.
  intros Hdb HF. rewrite (latest_run F db HF). cbn [store result].
  split; [reflexivity|]. split; [now intros ->|].
  intros Hne. destruct (harian_sorted db Hdb) as (Hp & Hok & Hs & _).
  destruct (order_by_desc "tanggal" (estimasi_harian db)) as [|r rest].
  - apply Permutation_nil in Hp. contradiction.
  - inversion Hok as [|? ? Hr Hrest]; subst.
    apply StronglySorted_inv in Hs as [_ Hall].
    exists r. split; [apply (Permutation_in r Hp); now left|].
    split.
    { apply (row_ok_names estimasi_harian_schema r Hr). }
    split.
    + apply (Permutation_Forall Hp). constructor; [|exact Hall].
      destruct (harian_dated r Hr) as [d Hd]. exists d, d.
      repeat split; auto. lia.
    + now rewrite (harian_select_all r Hr).
Qed.

(** The empty table, and the table after one ingest for 2024-01-01. *)
Lemma latest_row_witness :
  let json_dumps := fun _ : Dict string => "{}" in
  let p := {| tanggal := 738886; kota := "Depok";
              estimasi := [("Beji", 1%float)]; rata_rata_kota := 3%float;
              tanggal_fitur := None |} in
  let db1 := store (ingest json_dumps p no_faults empty_db) in
  result (latest no_faults empty_db) = Return (VDict [("data", VNone)])
  /\ result (latest no_faults db1) = Return (VDict [("data", VDict (harian_row p))]).
Proof.
  intros json_dumps p db1. split.
  - apply (proj1 (proj2 (latest_row no_faults empty_db eq_refl eq_refl))).
    reflexivity.
  - reflexivity.
Defined.

Lemma map_select_all (l : list Row) :
  Forall (fun r => row_ok estimasi_harian_schema r = true) l ->
  map (fun r => VDict (combine history_columns r))
      (map (project history_columns) l)
  = map VDict l.
Proof.
  intros Hl. rewrite map_map. apply map_ext_in. intros r Hr.
  rewrite Forall_forall in Hl. now rewrite (harian_select_all r (Hl r Hr)).
Qed.

Lemma forall_firstn {A : Type} (P : A -> Prop) (n : nat) (l : list A) :
  Forall P l -> Forall P (firstn n l).
Proof.
  rewrite !Forall_forall. intros H x Hx. apply H. now apply (in_firstn n).
Qed.

(** C7 (as amended): for a count between 0 and the largest bigint, on a
    server that does not fail, [history] leaves the database as it is and
    returns, under "data", the mappings of min(limit, number of rows) stored
    rows, each with the fourteen columns of the select list, in strictly
    descending order of date, and every stored row left out is dated before
    every row returned; on an empty table the list is empty.  Without a
    [limit] the count is 30. *)
Theorem history_rows (limit : Z) (F : Faults) (db : Database) :
  db_ok db ->
  0 <= limit <= PG_INT64_MAX ->
  first_fault F query_calls = None ->
  exists rows : list Row,
    result (history limit F db) = Return (VDict [("data", VList (map VDict rows))])
    /\ store (history limit F db) = db
    /\ Z.of_nat (List.length rows) <= limit
    /\ List.length rows
       = Nat.min (Z.to_nat limit) (List.length (estimasi_harian db))
    /\ StronglySorted later rows
    /\ Forall (fun r => map fst r = history_columns
                        /\ In r (estimasi_harian db)) rows
    /\ (forall r x, In r (estimasi_harian db) -> ~ In r rows -> In x rows ->
                    later x r)
    /\ (estimasi_harian db = [] -> rows = [])
    /\ get_history None F db = history 30 F db.
Proof.
  intros Hdb Hlim HF.
  destruct (harian_sorted db Hdb) as (Hp & Hok & _ & Hs).
  set (sorted := order_by_desc "tanggal" (estimasi_harian db)) in *.
  exists (firstn (Z.to_nat limit) sorted).
  rewrite (history_run limit F db Hlim HF). cbn [result store]. fold sorted.
  split.
  { rewrite map_select_all; [reflexivity|]. now apply forall_firstn. }
  split; [reflexivity|].
  assert (Hlen : List.length (firstn (Z.to_nat limit) sorted)
                 = Nat.min (Z.to_nat limit) (List.length (estimasi_harian db))).
  { rewrite length_firstn. now rewrite (Permutation_length Hp). }
  split; [rewrite Hlen; lia|]. split; [exact Hlen|].
  split; [now apply firstn_sorted|].
  split.
  { apply forall_firstn. rewrite Forall_forall in *. intros r Hr. split.
    - apply (row_ok_names estimasi_harian_schema r (Hok r Hr)).
    - now apply (Permutation_in r Hp). }
  split.
  { intros r x Hr Hnot Hx.
    apply (firstn_first later (Z.to_nat limit) sorted x r); auto.
    now apply (Permutation_in r (Permutation_sym Hp)). }
  split; [|reflexivity].
  intros Hempty. unfold sorted. rewrite Hempty. simpl. apply firstn_nil.
Qed.

(** Three dates ingested out of order, then [history(limit=2)]: the two
    latest rows, newest first. *)
Lemma history_rows_witness :
  let json_dumps := fun _ : Dict string => "{}" in
  let day := fun d x => {| tanggal := d; kota := "Depok";
                           estimasi := [("Beji", x)]; rata_rata_kota := x;
                           tanggal_fitur := None |} in
  let db1 := store (ingest json_dumps (day 738887 20%float) no_faults empty_db) in
  let db2 := store (ingest json_dumps (day 738888 30%float) no_faults db1) in
  let db3 := store (ingest json_dumps (day 738886 10%float) no_faults db2) in
  exists rows : list Row,
    result (history 2 no_faults db3) = Return (VDict [("data", VList (map VDict rows))])
    /\ List.length rows = 2%nat
    /\ StronglySorted later rows.
Proof.
  intros json_dumps day db1 db2 db3.
  assert (Hlim : 0 <= 2 <= PG_INT64_MAX) by (unfold PG_INT64_MAX; lia).
  destruct (history_rows 2 no_faults db3 eq_refl Hlim eq_refl)
    as (rows & Hres & _ & _ & Hlen & Hsorted & _).
  exists rows. split; [exact Hres|]. split; [exact Hlen|exact Hsorted].
Defined.

(** C7 as stated fails: a negative count, and a count beyond bigint, are
    rejected by the server, also on an empty table, and the error leaves
    [history]. *)
Lemma history_limit_out_of_range :
  result (history (-1) no_faults empty_db)
  = Unhandled (Error "LIMIT must not be negative")
  /\ result (history 9223372036854775808 no_faults empty_db)
     = Unhandled (Error "bigint out of range")
  /\ ~ (forall limit, exists rows,
          result (history limit no_faults empty_db)
          = Return (VDict [("data", VList rows)])).
Proof.
  split; [reflexivity|]. split; [reflexivity|].
  intros H. destruct (H (-1)) as [rows Hrows]. discriminate Hrows.
Qed.

(* ================================================================== *)
(** ** The aggregates of [stats] *)

Lemma float8smaller_spec (xs : list float) (x : float) :
  In (fold_left float8smaller xs x) (x :: xs)
  /\ Forall (fun y => float8_key (fold_left float8smaller xs x)
                      <= float8_key y) (x :: xs).
Proof.
  revert x. induction xs as [|y xs IH]; intros x; cbn [fold_left].
  - split; [now left|]. constructor; [apply Z.le_refl|constructor].
  - unfold float8smaller at 2 4. unfold float8_lt.
    destruct (Z.ltb_spec (float8_key x) (float8_key y)) as [Hlt|Hge].
    + destruct (IH x) as [Hin Hall].
      inversion Hall as [|? ? Hx Hxs]; subst. split.
      * destruct Hin as [Hin | Hin]; [now left | right; now right].
      * constructor; [exact Hx|]. constructor; [lia|exact Hxs].
    + destruct (IH y) as [Hin Hall].
      inversion Hall as [|? ? Hy Hxs]; subst. split.
      * right. exact Hin.
      * constructor; [lia|]. now constructor.
Qed.

Lemma float8larger_spec (xs : list float) (x : float) :
  In (fold_left float8larger xs x) (x :: xs)
  /\ Forall (fun y => float8_key y
                      <= float8_key (fold_left float8larger xs x)) (x :: xs).
Proof.
  revert x. induction xs as [|y xs IH]; intros x; cbn [fold_left].
  - split; [now left|]. constructor; [apply Z.le_refl|constructor].
  - unfold float8larger at 2 4. unfold float8_gt, float8_lt.
    destruct (Z.ltb_spec (float8_key y) (float8_key x)) as [Hlt|Hge].
    + destruct (IH x) as [Hin Hall].
      inversion Hall as [|? ? Hx Hxs]; subst. split.
      * destruct Hin as [Hin | Hin]; [now left | right; now right].
      * constructor; [exact Hx|]. constructor; [lia|exact Hxs].
    + destruct (IH y) as [Hin Hall].
      inversion Hall as [|? ? Hy Hxs]; subst. split.
      * right. exact Hin.
      * constructor; [lia|]. now constructor.
Qed.

(** The count and the sum of AVG go their own ways. *)
Lemma float8_accum_fold (xs : list float) (n sx : float) :
  fold_left float8_accum xs (n, sx)
  = (fold_left (fun k _ => (k + 1)%float) xs n,
     fold_left PrimFloat.add xs sx).
Proof.
  revert n sx. induction xs as [|x xs IH]; intros n sx; simpl;
    [reflexivity|].
  unfold float8_accum at 2. simpl. apply IH.
Qed.

(** AVG is the double precision sum of the inputs, taken in their order,
    divided by their double precision count; MIN and MAX are inputs that
    the server's order puts below and above every input. *)
Lemma aggregates_spec (xs : list float) :
  xs <> [] ->
  exists lo hi,
    sql_avg xs
    = VFloat (fold_left PrimFloat.add xs 0%float
              / fold_left (fun k _ => (k + 1)%float) xs 0%float)
    /\ sql_min xs = VFloat lo /\ sql_max xs = VFloat hi
    /\ In lo xs /\ In hi xs
    /\ Forall (fun x => float8_key lo <= float8_key x
                        /\ float8_key x <= float8_key hi) xs.
Proof.
  destruct xs as [|x xs]; [congruence|]. intros _.
  destruct (float8smaller_spec xs x) as [Hmin Hlo].
  destruct (float8larger_spec xs x) as [Hmax Hhi].
  eexists _, _. split.
  { unfold sql_avg. now rewrite float8_accum_fold. }
  repeat split; try reflexivity; auto.
  rewrite Forall_forall in *. intros y Hy. split; auto.
Qed.

(** [stats] when the server does not fail. *)
Lemma stats_run (F : Faults) (db : Database) :
  first_fault F query_calls = None ->
  stats F db =
  {| result :=
       let xs := column_numbers "rata_rata_kota" (estimasi_harian db) in
       Return (VDict [("data",
         VDict [("n_hari", VInt (Z.of_nat (List.length (estimasi_harian db))));
                ("pm25_avg", sql_avg xs); ("pm25_min", sql_min xs);
                ("pm25_max", sql_max xs)])]);
     store := db;
     trace := [Connect; Execute 0; Commit] |}.
Proof.
  intros HF. apply no_query_faults in HF as (Hc & He & Hm).
  unfold stats, leave, with_get_conn, bind, execute, stats_sql,
    description_names, fetchone, ret.
  rewrite Hc. cbn [view executed]. rewrite He. cbn. rewrite Hm. reflexivity.
Qed.

(** Ingesting a date the table does not have adds the proposed row. *)
Lemma upsert_new_date (p : PayloadAggregat) (t : list Row) :
  has_date (tanggal p) t = false ->
  insert_on_conflict_do_update ["tanggal"] update_set (harian_row p) t
  = (t ++ [harian_row p])%list.
Proof.
  intros H. unfold insert_on_conflict_do_update.
  now rewrite <- has_date_conflicts, H.
Qed.

(** A typed daily row without NULL city average holds a number there. *)
Lemma harian_average (r : Row) :
  row_ok estimasi_harian_schema r = true ->
  is_null (col "rata_rata_kota" r) = false ->
  exists x, col "rata_rata_kota" r = VFloat x.
Proof.
  intros Hr Hnn. unfold row_ok in Hr. apply andb_prop in Hr as [Hty _].
  assert (Hin : In ("rata_rata_kota", FLOAT) (columns estimasi_harian_schema))
    by (simpl; auto).
  pose proof (typed_col r _ _ _ Hty harian_columns_distinct Hin) as Hf.
  destruct (col "rata_rata_kota" r); simpl in *; try discriminate.
  now eexists.
Qed.

(** C8: on a server that does not fail, [stats] leaves the database as it
    is and returns one record with the number of rows and the AVG, MIN and
    MAX of the city averages: the mean as double precision computes it (the
    sum of the values divided by their count), the least and the greatest of
    them, NULL when there is none, which an empty table passes through with
    count 0.  After ingests of city averages 10, 20 and 30 for three
    distinct dates into the empty database the record is 3, 20, 10, 30. *)
Theorem stats_summary (F : Faults) :
  first_fault F query_calls = None ->
  (forall db,
     let t := estimasi_harian db in
     let xs := column_numbers "rata_rata_kota" t in
     store (stats F db) = db
     /\ (exists avg lo hi,
           result (stats F db)
           = Return (VDict [("data",
               VDict [("n_hari", VInt (Z.of_nat (List.length t)));
                      ("pm25_avg", avg); ("pm25_min", lo);
                      ("pm25_max", hi)])])
           /\ (xs = [] -> avg = VNone /\ lo = VNone /\ hi = VNone)
           /\ (xs <> [] ->
               exists l h,
                 avg = VFloat (fold_left PrimFloat.add xs 0%float
                               / fold_left (fun k _ => (k + 1)%float) xs 0%float)
                 /\ lo = VFloat l /\ hi = VFloat h
                 /\ In l xs /\ In h xs
                 /\ Forall (fun x => float8_key l <= float8_key x
                                     /\ float8_key x <= float8_key h) xs))
     /\ (db_ok db ->
         Forall (fun r => is_null (col "rata_rata_kota" r) = false) t ->
         List.length xs = List.length t))
  /\ result (stats F empty_db)
     = Return (VDict [("data",
         VDict [("n_hari", VInt 0); ("pm25_avg", VNone);
                ("pm25_min", VNone); ("pm25_max", VNone)])])
  /\ (forall json_dumps p1 p2 p3 F1 F2 F3,
        tanggal p1 <> tanggal p2 -> tanggal p1 <> tanggal p3 ->
        tanggal p2 <> tanggal p3 ->
        rata_rata_kota p1 = 10%float -> rata_rata_kota p2 = 20%float ->
        rata_rata_kota p3 = 30%float ->
        let db1 := store (ingest json_dumps p1 F1 empty_db) in
        let db2 := store (ingest json_dumps p2 F2 db1) in
        let db3 := store (ingest json_dumps p3 F3 db2) in
        returned (ingest json_dumps p1 F1 empty_db) = true ->
        returned (ingest json_dumps p2 F2 db1) = true ->
        returned (ingest json_dumps p3 F3 db2) = true ->
        result (stats F db3)
        = Return (VDict [("data",
            VDict [("n_hari", VInt 3); ("pm25_avg", VFloat 20);
                   ("pm25_min", VFloat 10); ("pm25_max", VFloat 30)])])).
Proof.
  intros HF. split; [|split].
  - intros db t xs. rewrite (stats_run F db HF). cbn [store result].
    fold t. fold xs. split; [reflexivity|]. split.
    + exists (sql_avg xs), (sql_min xs), (sql_max xs).
      split; [reflexivity|]. split.
      * intros ->. repeat split.
      * intros Hne. destruct (aggregates_spec xs Hne)
          as (l & h & Ha & Hl & Hh & Hinl & Hinh & Hall).
        exists l, h. repeat split; assumption.
    + intros Hdb Hnn. apply db_ok_tables in Hdb as [Hh _].
      apply (table_ok_spec estimasi_harian_schema harian_columns_distinct
               harian_key_columns) in Hh as [Hall _].
      fold t in Hall. subst xs. clearbody t.
      induction t as [|r t IH]; [reflexivity|].
      inversion Hall; subst. inversion Hnn; subst.
      destruct (harian_average r) as [x Hx]; auto.
      simpl. rewrite Hx. simpl. f_equal. now apply IH.
  - now rewrite (stats_run F empty_db HF).
  - intros json_dumps p1 p2 p3 F1 F2 F3 H12 H13 H23 R1 R2 R3 db1 db2 db3
      Hret1 Hret2 Hret3.
    assert (Ht : estimasi_harian db3
                 = [harian_row p1; harian_row p2; harian_row p3]).
    { subst db3 db2 db1.
      rewrite (ingest_returned_store _ _ _ _ Hret3).
      rewrite (ingest_returned_store _ _ _ _ Hret2).
      rewrite (ingest_returned_store _ _ _ _ Hret1).
      cbn [upserted estimasi_harian empty_db].
      rewrite (upsert_new_date p1 []); [|reflexivity].
      rewrite (upsert_new_date p2).
      2:{ unfold has_date. cbn [existsb app]. rewrite harian_row_date.
          simpl. rewrite orb_false_r. apply Z.eqb_neq. congruence. }
      rewrite (upsert_new_date p3).
      2:{ unfold has_date. cbn [existsb app]. rewrite !harian_row_date.
          simpl. rewrite orb_false_r. apply orb_false_iff.
          split; apply Z.eqb_neq; congruence. }
      reflexivity. }
    rewrite (stats_run F db3 HF). cbn [result]. rewrite Ht.
    assert (Hxs : column_numbers "rata_rata_kota"
                    [harian_row p1; harian_row p2; harian_row p3]
                  = [10; 20; 30]%float).
    { rewrite <- R1, <- R2, <- R3. reflexivity. }
    rewrite Hxs. reflexivity.
Qed.

(** City averages 10, 20 and 30 ingested for three days; and 0.1, 0.2 and
    0.3, whose double precision mean is not 0.2. *)
Lemma stats_summary_witness :
  let json_dumps := fun _ : Dict string => "{}" in
  let day := fun d x => {| tanggal := d; kota := "Depok";
                           estimasi := [("Beji", x)]; rata_rata_kota := x;
                           tanggal_fitur := None |} in
  let db1 := store (ingest json_dumps (day 738886 10%float) no_faults empty_db) in
  let db2 := store (ingest json_dumps (day 738887 20%float) no_faults db1) in
  let db3 := store (ingest json_dumps (day 738888 30%float) no_faults db2) in
  let dc1 := store (ingest json_dumps (day 738886 0.1%float) no_faults empty_db) in
  let dc2 := store (ingest json_dumps (day 738887 0.2%float) no_faults dc1) in
  let dc3 := store (ingest json_dumps (day 738888 0.3%float) no_faults dc2) in
  result (stats no_faults empty_db)
  = Return (VDict [("data",
      VDict [("n_hari", VInt 0); ("pm25_avg", VNone);
             ("pm25_min", VNone); ("pm25_max", VNone)])])
  /\ result (stats no_faults db3)
     = Return (VDict [("data",
         VDict [("n_hari", VInt 3); ("pm25_avg", VFloat 20);
                ("pm25_min", VFloat 10); ("pm25_max", VFloat 30)])])
  /\ result (stats no_faults dc3)
     = Return (VDict [("data",
         VDict [("n_hari", VInt 3);
                ("pm25_avg", VFloat 0.20000000000000004);
                ("pm25_min", VFloat 0.1); ("pm25_max", VFloat 0.3)])]).
Proof.
  intros json_dumps day db1 db2 db3 dc1 dc2 dc3.
  destruct (stats_summary no_faults eq_refl) as (_ & Hempty & Hthree).
  split; [exact Hempty|]. split; [|reflexivity].
  apply (Hthree json_dumps (day 738886 10%float) (day 738887 20%float)
           (day 738888 30%float) no_faults no_faults no_faults);
    try reflexivity; simpl; lia.
Defined.

(* ================================================================== *)
(** ** Storage errors *)

(** The read endpoints have no [try]: the first storage error leaves the
    endpoint function, and the stored database is as before. *)
Lemma latest_fault (F : Faults) (db : Database) (e : exn) :
  first_fault F query_calls = Some e ->
  result (latest F db) = Unhandled e /\ store (latest F db) = db.
Proof.
  unfold query_calls, first_fault, latest, leave, with_get_conn, bind,
    execute, latest_sql, description_names, fetchone, ret.
  destruct (F Connect) as [e0|]; [intros [= ->]; now split|].
  cbn [view executed].
  destruct (F (Execute 0)) as [e0|]; [intros [= ->]; now split|].
  rewrite (limit_rows_in_range 1); [|unfold PG_INT64_MAX; lia].
  change (Z.to_nat 1) with 1%nat.
  destruct (order_by_desc "tanggal" (estimasi_harian db)); cbn;
    destruct (F Commit); intros [= ->]; now split.
Qed.

Lemma history_fault (limit : Z) (F : Faults) (db : Database) (e : exn) :
  0 <= limit <= PG_INT64_MAX ->
  first_fault F query_calls = Some e ->
  result (history limit F db) = Unhandled e /\ store (history limit F db) = db.
Proof.
  intros Hlim.
  unfold query_calls, first_fault, history, leave, with_get_conn, bind,
    execute, history_sql, description_names, fetchall, ret.
  destruct (F Connect) as [e0|]; [intros [= ->]; now split|].
  cbn [view executed].
  destruct (F (Execute 0)) as [e0|]; [intros [= ->]; now split|].
  rewrite (limit_rows_in_range _ _ Hlim). cbn.
  destruct (F Commit); intros [= ->]; now split.
Qed.

Lemma stats_fault (F : Faults) (db : Database) (e : exn) :
  first_fault F query_calls = Some e ->
  result (stats F db) = Unhandled e /\ store (stats F db) = db.
Proof.
  unfold query_calls, first_fault, stats, leave, with_get_conn, bind,
    execute, stats_sql, description_names, fetchone, ret.
  destruct (F Connect) as [e0|]; [intros [= ->]; now split|].
  cbn [view executed].
  destruct (F (Execute 0)) as [e0|]; [intros [= ->]; now split|].
  cbn. destruct (F Commit); intros [= ->]; now split.
Qed.

(** C5 (as amended): [ingest] catches the first storage error of its
    database interaction and raises [HTTPException] 500 with the error's
    text as detail, which the framework sends as such; [latest], [history]
    (for a count the server accepts) and [stats] do not catch it: the error
    leaves the endpoint function, and the framework answers 500 with its own
    fixed text.  In every case the stored database is unchanged. *)
Theorem storage_errors (json_dumps : Dict string -> string)
    (p : PayloadAggregat) (limit : Z) (F : Faults) (db : Database) (e : exn) :
  0 <= limit <= PG_INT64_MAX ->
  (first_fault F (ingest_calls (meta_rows json_dumps p)) = Some e ->
   result (ingest json_dumps p F db) = HTTPException 500 (str e)
   /\ respond (result (ingest json_dumps p F db))
      = {| status := 500; content := VDict [("detail", VStr (str e))] |}
   /\ store (ingest json_dumps p F db) = db)
  /\ (first_fault F query_calls = Some e ->
      result (latest F db) = Unhandled e
      /\ result (history limit F db) = Unhandled e
      /\ result (stats F db) = Unhandled e
      /\ respond (Unhandled e)
         = {| status := 500; content := VStr "Internal Server Error" |}
      /\ store (latest F db) = db
      /\ store (history limit F db) = db
      /\ store (stats F db) = db).
Proof.
  intros Hlim. split.
  - intros HF. rewrite ingest_result, ingest_store, HF. repeat split.
  - intros HF.
    destruct (latest_fault F db e HF) as [H1 H2].
    destruct (history_fault limit F db e Hlim HF) as [H3 H4].
    destruct (stats_fault F db e HF) as [H5 H6].
    repeat split; assumption.
Qed.

(** The statement times out, for [ingest] and for the read endpoints. *)
Lemma storage_errors_witness :
  let json_dumps := fun _ : Dict string => "{}" in
  let F := fun c => match c with
                    | Execute 0 => Some (Error "statement timeout")
                    | _ => None
                    end in
  let p := {| tanggal := 738886; kota := "Depok";
              estimasi := [("Beji", 1%float)]; rata_rata_kota := 3%float;
              tanggal_fitur := None |} in
  result (ingest json_dumps p F empty_db)
  = HTTPException 500 "statement timeout"
  /\ result (history 30 F empty_db) = Unhandled (Error "statement timeout").
Proof.
  intros json_dumps F p.
  assert (Hlim : 0 <= 30 <= PG_INT64_MAX) by (unfold PG_INT64_MAX; lia).
  destruct (storage_errors json_dumps p 30 F empty_db
              (Error "statement timeout") Hlim) as [Hi Hq].
  split.
  - exact (proj1 (Hi eq_refl)).
  - exact (proj1 (proj2 (Hq eq_refl))).
Defined.

(** C5 as stated fails for the read endpoints: when the connection is
    refused, [latest], [history] and [stats] do not end in the 500 of a
    handler, and the answer does not carry the error's text. *)
Lemma read_endpoints_do_not_catch :
  let F := fun c => match c with
                    | Connect => Some (Error "connection refused")
                    | _ => None
                    end in
  result (latest F empty_db) = Unhandled (Error "connection refused")
  /\ result (history 30 F empty_db) = Unhandled (Error "connection refused")
  /\ result (stats F empty_db) = Unhandled (Error "connection refused")
  /\ result (latest F empty_db) <> HTTPException 500 "connection refused"
  /\ content (respond (result (latest F empty_db)))
     <> VDict [("detail", VStr "connection refused")].
Proof.
  intros F. repeat split; try reflexivity; discriminate.
Qed.

(* ================================================================== *)
(** ** More on tables under the upsert *)

Section UpsertMore.

Variable S : Schema.
Variable U : list string.

Hypothesis columns_distinct : NoDup (map fst (columns S)).
Hypothesis key_columns :
  forall c, In c (primary_key S) ->
            exists ty, In (c, ty) (columns S) /\ (ty = DATE \/ ty = TEXT).
Hypothesis update_covers :
  forall c, In c (map fst (columns S)) -> In c (primary_key S) \/ In c U.

Let key := primary_key S.
Let upsert := insert_on_conflict_do_update key U.

Lemma existsb_pointwise {A : Type} (f g : A -> bool) (l : list A) :
  (forall x, f x = g x) -> existsb f l = existsb g l.
Proof.
  intros H. induction l as [|x l IH]; simpl; [reflexivity|].
  now rewrite H, IH.
Qed.

(** Proposed rows with one key conflict with the same stored rows. *)
Lemma conflicts_same_key (a b r : Row) :
  row_ok S a = true -> row_ok S b = true ->
  key_of key a = key_of key b -> conflicts key a r = conflicts key b r.
Proof.
  intros Ha Hb Hk.
  pose proof (conflicts_key S columns_distinct key_columns a r Ha) as Ia.
  pose proof (conflicts_key S columns_distinct key_columns b r Hb) as Ib.
  fold key in Ia, Ib.
  destruct (conflicts key a r), (conflicts key b r); try reflexivity.
  - destruct Ia as [Ia _]. destruct Ib as [_ Ib].
    symmetry. apply Ib. rewrite <- Hk. now apply Ia.
  - destruct Ia as [_ Ia]. destruct Ib as [Ib _].
    apply Ia. rewrite Hk. now apply Ib.
Qed.

(** A second proposal for the same key leaves no trace of the first. *)
Lemma upsert_absorbs (a b : Row) (t : list Row) :
  row_ok S a = true -> row_ok S b = true -> table_ok S t = true ->
  key_of key a = key_of key b ->
  upsert b (upsert a t) = upsert b t.
Proof.
  intros Ha Hb Ht Hk.
  pose proof (upsert_ok S U columns_distinct key_columns update_covers a t
                Ha Ht) as Hta.
  unfold upsert, key.
  rewrite (upsert_spec S U columns_distinct key_columns update_covers b _
             Hb Hta).
  rewrite (upsert_spec S U columns_distinct key_columns update_covers a t
             Ha Ht).
  rewrite (upsert_spec S U columns_distinct key_columns update_covers b t
             Hb Ht).
  fold key.
  assert (Hsame : forall r, conflicts key b r = conflicts key a r).
  { intros r. symmetry. now apply conflicts_same_key. }
  assert (Hba : conflicts key b a = true).
  { apply (conflicts_key S columns_distinct key_columns b a Hb). now symmetry. }
  rewrite (existsb_pointwise _ _ t Hsame).
  destruct (existsb (conflicts key a) t) eqn:E.
  - assert (E' : existsb (conflicts key b)
                   (map (fun old => if conflicts key a old then a else old) t)
                 = true).
    { apply existsb_exists in E as (old & Hin & Hc).
      apply existsb_exists. exists a. split; [|exact Hba].
      apply in_map_iff. exists old. now rewrite Hc. }
    rewrite E', map_map. apply map_ext. intros old.
    rewrite (Hsame old).
    destruct (conflicts key a old) eqn:Ec.
    + now rewrite Hba.
    + now rewrite (Hsame old), Ec.
  - rewrite existsb_app. cbn [existsb]. rewrite Hba, orb_true_l, orb_true_r.
    rewrite map_app. simpl. rewrite Hba. f_equal.
    rewrite <- (map_id t) at 2. apply map_ext_in. intros old Hin.
    rewrite Hsame.
    destruct (conflicts key a old) eqn:Ec; [|reflexivity].
    assert (existsb (conflicts key a) t = true); [|congruence].
    apply existsb_exists. now exists old.
Qed.

(** The statement removes no key, and no row count goes down. *)
Lemma upsert_keeps_keys (new r : Row) (t : list Row) :
  row_ok S new = true -> table_ok S t = true -> In r t ->
  exists r', In r' (upsert new t) /\ key_of key r' = key_of key r.
Proof.
  intros Hn Ht Hin. destruct (conflicts key new r) eqn:Ec.
  - exists new. split.
    + now apply (upsert_in S U columns_distinct key_columns update_covers).
    + now apply (conflicts_key S columns_distinct key_columns new r Hn).
  - exists r. split; [|reflexivity].
    now apply (upsert_other S U columns_distinct key_columns update_covers).
Qed.

Lemma upsert_grows (new : Row) (t : list Row) :
  row_ok S new = true -> table_ok S t = true ->
  (List.length t <= List.length (upsert new t))%nat.
Proof.
  intros Hn Ht. unfold upsert, key.
  rewrite (upsert_spec S U columns_distinct key_columns update_covers new t
             Hn Ht).
  destruct (existsb _ t).
  - now rewrite length_map.
  - rewrite length_app. simpl. lia.
Qed.

Lemma upsert_all_keeps_keys (rows : list Row) (t : list Row) (r : Row) :
  Forall (fun r => row_ok S r = true) rows -> table_ok S t = true ->
  In r t ->
  exists r', In r' (fold_left (fun t r => upsert r t) rows t)
             /\ key_of key r' = key_of key r.
Proof.
  intros Hrows. revert t r.
  induction Hrows as [|r0 rows Hr0 _ IH]; simpl; intros t r Ht Hin.
  - now exists r.
  - destruct (upsert_keeps_keys r0 r t Hr0 Ht Hin) as (r1 & Hin1 & Hk1).
    destruct (IH (upsert r0 t) r1) as (r2 & Hin2 & Hk2); auto.
    + now apply (upsert_ok S U columns_distinct key_columns update_covers).
    + exists r2. split; [exact Hin2|congruence].
Qed.

Lemma upsert_all_grows (rows : list Row) (t : list Row) :
  Forall (fun r => row_ok S r = true) rows -> table_ok S t = true ->
  (List.length t
   <= List.length (fold_left (fun t r => upsert r t) rows t))%nat.
Proof.
  intros Hrows. revert t.
  induction Hrows as [|r0 rows Hr0 _ IH]; simpl; intros t Ht; [lia|].
  apply Nat.le_trans with (List.length (upsert r0 t)).
  - now apply upsert_grows.
  - apply IH.
    now apply (upsert_ok S U columns_distinct key_columns update_covers).
Qed.

End UpsertMore.

(* ================================================================== *)
(** ** Further properties of [ingest] *)

(** Every database a client can reach from the empty one by ingests,
    whatever the payloads and whatever fails on the way, is well formed: no
    two daily rows share a date, no two metadata rows share a date and an
    area, and every row is typed. *)
Theorem reachable_db_ok (json_dumps : Dict string -> string)
    (requests : list (PayloadAggregat * Faults)) :
  db_ok (run_ingests json_dumps requests empty_db).
Proof.
  assert (H : forall db, db_ok db -> db_ok (run_ingests json_dumps requests db)).
  { induction requests as [|[p F] requests IH]; simpl; intros db Hdb; auto.
    apply IH. now apply ingest_db_ok. }
  apply H. reflexivity.
Qed.

(** Ingesting a date the daily table does not have adds one row, the
    payload's, after the rows that were there. *)
Theorem ingest_new_date (json_dumps : Dict string -> string)
    (p : PayloadAggregat) (F : Faults) (db : Database) :
  has_date (tanggal p) (estimasi_harian db) = false ->
  returned (ingest json_dumps p F db) = true ->
  estimasi_harian (store (ingest json_dumps p F db))
  = (estimasi_harian db ++ [harian_row p])%list.
Proof.
  intros Hnew Hret. rewrite (ingest_returned_store json_dumps p F db Hret).
  cbn [upserted estimasi_harian]. now apply upsert_new_date.
Qed.

Lemma ingest_new_date_witness :
  let json_dumps := fun _ : Dict string => "{}" in
  let day := fun d x => {| tanggal := d; kota := "Depok";
                           estimasi := [("Beji", x)]; rata_rata_kota := x;
                           tanggal_fitur := None |} in
  let db1 := store (ingest json_dumps (day 738886 10%float) no_faults empty_db) in
  estimasi_harian (store (ingest json_dumps (day 738880 20%float) no_faults db1))
  = [harian_row (day 738886 10%float); harian_row (day 738880 20%float)].
Proof.
  intros json_dumps day db1.
  apply (ingest_new_date json_dumps (day 738880 20%float) no_faults db1);
    reflexivity.
Defined.

Lemma harian_key_of (p : PayloadAggregat) :
  key_of ["tanggal"] (harian_row p) = [VDate (tanggal p)].
Proof. reflexivity. Qed.

(** Last write wins in the daily table: after two ingests for one date the
    table is what the second ingest alone would have left. *)
Theorem ingest_last_write_wins (json_dumps : Dict string -> string)
    (p1 p2 : PayloadAggregat) (F1 F2 F : Faults) (db : Database) :
  db_ok db ->
  tanggal p1 = tanggal p2 ->
  returned (ingest json_dumps p1 F1 db) = true ->
  returned (ingest json_dumps p2 F2 (store (ingest json_dumps p1 F1 db))) = true ->
  returned (ingest json_dumps p2 F db) = true ->
  estimasi_harian
    (store (ingest json_dumps p2 F2 (store (ingest json_dumps p1 F1 db))))
  = estimasi_harian (store (ingest json_dumps p2 F db)).
Proof.
  intros Hdb Hd H1 H2 H.
  rewrite (ingest_returned_store _ _ _ _ H2).
  rewrite (ingest_returned_store _ _ _ _ H1).
  rewrite (ingest_returned_store _ _ _ _ H).
  cbn [upserted estimasi_harian]. apply db_ok_tables in Hdb as [Hh _].
  apply (upsert_absorbs estimasi_harian_schema update_set
           harian_columns_distinct harian_key_columns harian_update_covers);
    auto using harian_row_ok.
  cbn [primary_key estimasi_harian_schema]. rewrite !harian_key_of.
  now rewrite Hd.
Qed.

Lemma ingest_last_write_wins_witness :
  let json_dumps := fun _ : Dict string => "{}" in
  let p1 := {| tanggal := 738886; kota := "Depok";
               estimasi := [("Beji", 1%float); ("Tapos", 4%float)];
               rata_rata_kota := 1%float; tanggal_fitur := None |} in
  let p2 := {| tanggal := 738886; kota := "Kota Depok";
               estimasi := [("Cinere", 2%float)]; rata_rata_kota := 2%float;
               tanggal_fitur := None |} in
  estimasi_harian
    (store (ingest json_dumps p2 no_faults
              (store (ingest json_dumps p1 no_faults empty_db))))
  = estimasi_harian (store (ingest json_dumps p2 no_faults empty_db)).
Proof.
  intros json_dumps p1 p2.
  apply (ingest_last_write_wins json_dumps p1 p2 no_faults no_faults no_faults
           empty_db); reflexivity.
Defined.

(** The metadata table is not replaced with the daily row: when a date is
    ingested again with metadata that leaves an area out, the metadata row
    the first ingest wrote for that area is still there, while the daily row
    is the second payload's. *)
Theorem ingest_keeps_stale_metadata (json_dumps : Dict string -> string)
    (p1 p2 : PayloadAggregat) (F1 F2 : Faults) (db : Database)
    (kec : string) (meta : Dict string) :
  db_ok db ->
  dict_ok (fitur_items p1) ->
  tanggal p2 = tanggal p1 ->
  In (kec, meta) (fitur_items p1) ->
  ~ In kec (map fst (fitur_items p2)) ->
  returned (ingest json_dumps p1 F1 db) = true ->
  returned (ingest json_dumps p2 F2 (store (ingest json_dumps p1 F1 db))) = true ->
  let db2 :=
    store (ingest json_dumps p2 F2 (store (ingest json_dumps p1 F1 db))) in
  rows_of_area (tanggal p1) kec (estimasi_metadata db2)
  = [metadata_row [VDate (tanggal p1); VStr kec;
                   VStr (json_dumps []); VStr (json_dumps meta)]]
  /\ rows_of_date (tanggal p1) (estimasi_harian db2) = [harian_row p2].
Proof.
  intros Hdb Hdict Hd Hin Hnot H1 H2 db2. subst db2.
  rewrite (ingest_returned_store _ _ _ _ H2).
  rewrite (ingest_returned_store _ _ _ _ H1).
  pose proof (upserted_ok json_dumps p1 db Hdb) as Hok1.
  pose proof (upserted_ok json_dumps p2 _ Hok1) as Hok2.
  split.
  - apply db_ok_tables in Hok2 as [_ Hm2].
    pose proof Hok1 as Hok1'. apply db_ok_tables in Hok1' as [_ Hm1].
    apply db_ok_tables in Hdb as [_ Hm].
    unfold rows_of_area.
    rewrite (filter_ext _ _
               (fun r => eq_sym (metadata_conflicts (tanggal p1) kec
                                   (json_dumps []) (json_dumps meta) r))).
    apply (filter_conflicts estimasi_metadata_schema
             metadata_columns_distinct metadata_key_columns); [exact Hm2|].
    cbn [upserted estimasi_metadata].
    apply (upsert_all_keeps estimasi_metadata_schema
             ["fitur"; "tanggal_fitur"] metadata_columns_distinct
             metadata_key_columns metadata_update_covers);
      auto using metadata_rows_ok.
    + apply (upsert_all_in estimasi_metadata_schema
               ["fitur"; "tanggal_fitur"] metadata_columns_distinct
               metadata_key_columns metadata_update_covers);
        auto using metadata_rows_ok, metadata_rows_keys.
      rewrite meta_rows_items, map_map. apply in_map_iff.
      exists (kec, meta). split; [reflexivity|exact Hin].
    + intros r' Hr'. rewrite meta_rows_items, map_map in Hr'.
      apply in_map_iff in Hr' as ([kec' meta'] & <- & Hin').
      cbn [fst snd primary_key estimasi_metadata_schema].
      rewrite metadata_conflicts.
      apply andb_false_iff. right. simpl.
      apply String.eqb_neq. intros ->. apply Hnot.
      now apply (in_map fst) in Hin'.
  - rewrite <- Hd. now apply upserted_rows_of_date.
Qed.

Lemma ingest_keeps_stale_metadata_witness :
  let json_dumps := fun d : Dict string =>
                      match d with [] => "{}" | _ :: _ => "{...}" end in
  let p1 := {| tanggal := 738886; kota := "Depok";
               estimasi := [("Beji", 1%float)]; rata_rata_kota := 1%float;
               tanggal_fitur := Some [("Beji", [("aod", "2023-12-31")])] |} in
  let p2 := {| tanggal := 738886; kota := "Depok";
               estimasi := [("Cinere", 2%float)]; rata_rata_kota := 2%float;
               tanggal_fitur := Some [("Cinere", [])] |} in
  let db2 := store (ingest json_dumps p2 no_faults
                      (store (ingest json_dumps p1 no_faults empty_db))) in
  rows_of_area 738886 "Beji" (estimasi_metadata db2)
  = [[("tanggal", VDate 738886); ("kecamatan", VStr "Beji");
      ("fitur", VStr "{}"); ("tanggal_fitur", VStr "{...}")]]
  /\ rows_of_date 738886 (estimasi_harian db2) = [harian_row p2].
Proof.
  intros json_dumps p1 p2 db2.
  apply (ingest_keeps_stale_metadata json_dumps p1 p2 no_faults no_faults
           empty_db "Beji" [("aod", "2023-12-31")]);
    try reflexivity.
  - simpl. auto.
  - simpl. intros [H | []]. discriminate H.
Defined.

Lemma has_date_exists (d : Z) (t : list Row) :
  has_date d t = true <->
  exists r, In r t /\ col "tanggal" r = VDate d.
Proof.
  unfold has_date. rewrite existsb_exists. split.
  - intros (r & Hin & He). exists r. split; [exact Hin|].
    destruct (col "tanggal" r); simpl in He; try discriminate.
    apply Z.eqb_eq in He. now subst.
  - intros (r & Hin & He). exists r. split; [exact Hin|].
    rewrite He. simpl. apply Z.eqb_refl.
Qed.

Lemma has_area_exists (d : Z) (kec : string) (t : list Row) :
  has_area d kec t = true <->
  exists r, In r t /\ col "tanggal" r = VDate d /\ col "kecamatan" r = VStr kec.
Proof.
  unfold has_area. rewrite existsb_exists. split.
  - intros (r & Hin & He). exists r. split; [exact Hin|].
    apply andb_prop in He as [Hd Hk].
    destruct (col "tanggal" r); simpl in Hd; try discriminate.
    destruct (col "kecamatan" r); simpl in Hk; try discriminate.
    apply Z.eqb_eq in Hd. apply String.eqb_eq in Hk. now subst.
  - intros (r & Hin & Hd & Hk). exists r. split; [exact Hin|].
    rewrite Hd, Hk. simpl. now rewrite Z.eqb_refl, String.eqb_refl.
Qed.

(** [ingest] never deletes: a date that has a daily row, and a date and
    area that have a metadata row, still have one afterwards, and neither
    table gets shorter; whatever the payload and whatever fails. *)
Theorem ingest_never_deletes (json_dumps : Dict string -> string)
    (p : PayloadAggregat) (F : Faults) (db : Database) :
  db_ok db ->
  let db' := store (ingest json_dumps p F db) in
  (forall d, has_date d (estimasi_harian db) = true ->
             has_date d (estimasi_harian db') = true)
  /\ (forall d kec, has_area d kec (estimasi_metadata db) = true ->
                    has_area d kec (estimasi_metadata db') = true)
  /\ (List.length (estimasi_harian db)
      <= List.length (estimasi_harian db'))%nat
  /\ (List.length (estimasi_metadata db)
      <= List.length (estimasi_metadata db'))%nat.
Proof.
  intros Hdb db'. subst db'. rewrite ingest_store.
  destruct (first_fault F _); [repeat split; auto|].
  apply db_ok_tables in Hdb as [Hh Hm]. cbn [upserted estimasi_harian
    estimasi_metadata]. repeat split.
  - intros d Hd. apply has_date_exists in Hd as (r & Hin & Hr).
    destruct (upsert_keeps_keys estimasi_harian_schema update_set
                harian_columns_distinct harian_key_columns
                harian_update_covers (harian_row p) r _
                (harian_row_ok p) Hh Hin) as (r' & Hin' & Hk).
    apply has_date_exists. exists r'. split; [exact Hin'|].
    unfold key_of in Hk. simpl in Hk. inversion Hk. congruence.
  - intros d kec Hd. apply has_area_exists in Hd as (r & Hin & Hr & Hk).
    destruct (upsert_all_keeps_keys estimasi_metadata_schema
                ["fitur"; "tanggal_fitur"] metadata_columns_distinct
                metadata_key_columns metadata_update_covers
                _ _ r (metadata_rows_ok json_dumps p) Hm Hin)
      as (r' & Hin' & Hk').
    apply has_area_exists. exists r'. split; [exact Hin'|].
    unfold key_of in Hk'. simpl in Hk'. inversion Hk'. split; congruence.
  - apply (upsert_grows estimasi_harian_schema update_set
             harian_columns_distinct harian_key_columns
             harian_update_covers); auto using harian_row_ok.
  - apply (upsert_all_grows estimasi_metadata_schema
             ["fitur"; "tanggal_fitur"] metadata_columns_distinct
             metadata_key_columns metadata_update_covers);
      auto using metadata_rows_ok.
Qed.

Lemma ingest_never_deletes_witness :
  let json_dumps := fun _ : Dict string => "{}" in
  let p1 := {| tanggal := 738886; kota := "Depok";
               estimasi := [("Beji", 1%float)]; rata_rata_kota := 1%float;
               tanggal_fitur := Some [("Beji", [])] |} in
  let p2 := {| tanggal := 738887; kota := "Depok";
               estimasi := [("Cinere", 2%float)]; rata_rata_kota := 2%float;
               tanggal_fitur := None |} in
  let db1 := store (ingest json_dumps p1 no_faults empty_db) in
  let db2 := store (ingest json_dumps p2 no_faults db1) in
  has_date 738886 (estimasi_harian db2) = true
  /\ has_area 738886 "Beji" (estimasi_metadata db2) = true.
Proof.
  intros json_dumps p1 p2 db1 db2.
  destruct (ingest_never_deletes json_dumps p2 no_faults db1 eq_refl)
    as (Hd & Ha & _).
  split; [apply Hd | apply Ha]; reflexivity.
Defined.

(** An ingest without metadata ([tanggal_fitur] absent or empty) sends one
    statement only and leaves the metadata table as it is. *)
Theorem ingest_without_metadata (json_dumps : Dict string -> string)
    (p : PayloadAggregat) (F : Faults) (db : Database) :
  fitur_items p = [] ->
  estimasi_metadata (store (ingest json_dumps p F db)) = estimasi_metadata db
  /\ ~ In (Execute 1) (trace (ingest json_dumps p F db)).
Proof.
  intros Hnone. split.
  - rewrite ingest_store. destruct (first_fault F _); [reflexivity|].
    cbn [upserted estimasi_metadata]. rewrite meta_rows_items, Hnone.
    reflexivity.
  - pose proof (meta_rows_items json_dumps p) as Hrows.
    rewrite Hnone in Hrows. simpl in Hrows.
    unfold ingest, with_get_conn, bind, execute_values, execute, ret.
    rewrite Hrows.
    destruct (F Connect); simpl;
      [intros [H | []]; discriminate H|].
    destruct (F (Execute 0)); simpl;
      [intros [H | [H | [H | []]]]; discriminate H|].
    destruct (F Commit); simpl;
      intros [H | [H | [H | []]]]; discriminate H.
Qed.

Lemma ingest_without_metadata_witness :
  let json_dumps := fun _ : Dict string => "{}" in
  let p := {| tanggal := 738886; kota := "Depok";
              estimasi := [("Beji", 1%float)]; rata_rata_kota := 1%float;
              tanggal_fitur := Some [] |} in
  estimasi_metadata (store (ingest json_dumps p no_faults empty_db)) = []
  /\ ~ In (Execute 1) (trace (ingest json_dumps p no_faults empty_db)).
Proof.
  intros json_dumps p.
  apply (ingest_without_metadata json_dumps p no_faults empty_db).
  reflexivity.
Defined.

(** The answer to [POST /api/pm25/ingest] is 200, 422 or 500, and every
    answer other than 200 leaves the stored database as it was. *)
Theorem post_ingest_status (json_dumps : Dict string -> string)
    (errors : exn -> list value) (b : Body) (F : Faults) (db : Database) :
  let r := post_ingest json_dumps errors b F db in
  (status (result r) = 200 \/ status (result r) = 422
   \/ status (result r) = 500)
  /\ (status (result r) <> 200 -> store r = db).
Proof.
  unfold post_ingest. destruct (parse_body b) as [p|e]; cbn.
  - rewrite ingest_result, ingest_store.
    destruct (first_fault F _); cbn; split; auto. congruence.
  - split; auto.
Qed.

(** A body with estimates that is answered 200 is stored as the row of its
    date, with the city it names, or Depok when it names none. *)
Theorem post_ingest_stores_body (json_dumps : Dict string -> string)
    (errors : exn -> list value) (b : Body) (F : Faults) (db : Database) :
  db_ok db ->
  status (result (post_ingest json_dumps errors b F db)) = 200 ->
  exists p,
    parse_body b = inl p
    /\ estimasi p = body_estimasi b
    /\ rows_of_date (body_tanggal b)
         (estimasi_harian (store (post_ingest json_dumps errors b F db)))
       = [harian_row p]
    /\ col "tanggal" (harian_row p) = VDate (body_tanggal b)
    /\ col "kota" (harian_row p)
       = VStr (match body_kota b with Some k => k | None => "Depok" end)
    /\ col "rata_rata_kota" (harian_row p) = VFloat (body_rata_rata_kota b).
Proof.
  intros Hdb Hst. unfold post_ingest in *.
  destruct (parse_body b) as [p|e] eqn:Hp; [|discriminate Hst].
  cbn [result store status] in *. exists p.
  assert (Hret : returned (ingest json_dumps p F db) = true).
  { unfold returned. rewrite ingest_result in *.
    destruct (first_fault F _); [discriminate Hst|reflexivity]. }
  rewrite (ingest_returned_store json_dumps p F db Hret).
  unfold parse_body, not_empty in Hp.
  destruct (body_estimasi b) as [|kv est] eqn:Hest; [discriminate Hp|].
  injection Hp as Hp'. split; [reflexivity|]. subst p. cbn [estimasi tanggal].
  split; [reflexivity|].
  split; [|repeat split].
  match goal with
  | |- rows_of_date _ (estimasi_harian (upserted _ ?q _)) = _ =>
      apply (upserted_rows_of_date json_dumps q db Hdb)
  end.
Qed.

Lemma post_ingest_stores_body_witness :
  let json_dumps := fun _ : Dict string => "{}" in
  let errors := fun _ : exn => [] in
  let b := {| body_tanggal := 738886; body_kota := None;
              body_estimasi := [("Beji", 1%float)]; body_rata_rata_kota := 12%float;
              body_tanggal_fitur := None |} in
  exists p,
    rows_of_date 738886
      (estimasi_harian
         (store (post_ingest json_dumps errors b no_faults empty_db)))
    = [harian_row p]
    /\ col "kota" (harian_row p) = VStr "Depok".
Proof.
  intros json_dumps errors b.
  destruct (post_ingest_stores_body json_dumps errors b no_faults empty_db
              eq_refl eq_refl) as (p & _ & _ & Hrows & _ & Hkota & _).
  exists p. split; [exact Hrows|exact Hkota].
Defined.

(* ================================================================== *)
(** ** Further properties of the read endpoints *)

(** The read endpoints never write: whatever the server does and whatever
    count [history] is given, the stored database is the same afterwards. *)
Theorem reads_leave_store (limit : Z) (F : Faults) (db : Database) :
  store (latest F db) = db
  /\ store (history limit F db) = db
  /\ store (stats F db) = db.
Proof.
  repeat split.
  - unfold latest, leave, with_get_conn, bind, execute, latest_sql,
      description_names, fetchone, ret.
    destruct (F Connect); [reflexivity|]. cbn [view executed].
    destruct (F (Execute 0)); [reflexivity|].
    rewrite (limit_rows_in_range 1); [|unfold PG_INT64_MAX; lia].
    change (Z.to_nat 1) with 1%nat.
    destruct (order_by_desc "tanggal" (estimasi_harian db)); cbn;
      destruct (F Commit); reflexivity.
  - unfold history, leave, with_get_conn, bind, execute, history_sql,
      description_names, fetchall, ret.
    destruct (F Connect); [reflexivity|]. cbn [view executed].
    destruct (F (Execute 0)); [reflexivity|].
    destruct (limit_rows limit _); cbn; [|reflexivity].
    destruct (F Commit); reflexivity.
  - unfold stats, leave, with_get_conn, bind, execute, stats_sql,
      description_names, fetchone, ret.
    destruct (F Connect); [reflexivity|]. cbn [view executed].
    destruct (F (Execute 0)); [reflexivity|]. cbn.
    destruct (F Commit); reflexivity.
Qed.

(** A count the server rejects, negative or beyond bigint, makes [history]
    fail for every table and every server behaviour; on a server without
    faults of its own the error is the server's rejection of the count. *)
Theorem history_rejects_count (limit : Z) (F : Faults) (db : Database) :
  limit < 0 \/ PG_INT64_MAX < limit ->
  returned (history limit F db) = false
  /\ (first_fault F [Connect; Execute 0] = None ->
      result (history limit F db)
      = Unhandled (Error (if limit <? 0 then "LIMIT must not be negative"
                          else "bigint out of range"))).
Proof.
  intros Hout.
  assert (Hl : limit_rows limit
                 (order_by_desc "tanggal" (estimasi_harian db))
               = inr (Error (if limit <? 0 then "LIMIT must not be negative"
                             else "bigint out of range"))).
  { unfold limit_rows. destruct (Z.ltb_spec limit 0); [reflexivity|].
    destruct (Z.ltb_spec PG_INT64_MAX limit); [reflexivity|lia]. }
  unfold returned, history, leave, with_get_conn, bind, execute, history_sql,
    description_names, fetchall, ret. simpl first_fault.
  destruct (F Connect); [split; [reflexivity|discriminate]|].
  cbn [view executed].
  destruct (F (Execute 0)); [split; [reflexivity|discriminate]|].
  rewrite Hl. cbn. split; reflexivity.
Qed.

Lemma history_rejects_count_witness :
  returned (history (-5) no_faults empty_db) = false
  /\ result (history (-5) no_faults empty_db)
     = Unhandled (Error "LIMIT must not be negative").
Proof.
  assert (H : -5 < 0 \/ PG_INT64_MAX < -5) by (left; lia).
  destruct (history_rejects_count (-5) no_faults empty_db H) as [Hr He].
  split; [exact Hr|]. apply He. reflexivity.
Defined.

(** [latest] is the head of [history]: on a server without faults
    [history(1)] returns the list of what [latest] returns, empty when
    [latest] returns None. *)
Theorem latest_is_history_1 (F : Faults) (db : Database) :
  first_fault F query_calls = None ->
  exists v,
    result (latest F db) = Return (VDict [("data", v)])
    /\ result (history 1 F db)
       = Return (VDict [("data",
           VList (match v with VNone => [] | _ => [v] end))]).
Proof.
  intros HF. rewrite (latest_run F db HF).
  rewrite (history_run 1 F db); [|unfold PG_INT64_MAX; lia|exact HF].
  cbn [result]. change (Z.to_nat 1) with 1%nat.
  destruct (order_by_desc "tanggal" (estimasi_harian db)) as [|r rest].
  - exists VNone. split; reflexivity.
  - eexists. split; reflexivity.
Qed.

Lemma latest_is_history_1_witness :
  let json_dumps := fun _ : Dict string => "{}" in
  let day := fun d x => {| tanggal := d; kota := "Depok";
                           estimasi := [("Beji", x)]; rata_rata_kota := x;
                           tanggal_fitur := None |} in
  let db1 := store (ingest json_dumps (day 738887 20%float) no_faults empty_db) in
  let db2 := store (ingest json_dumps (day 738886 10%float) no_faults db1) in
  exists v,
    result (latest no_faults db2) = Return (VDict [("data", v)])
    /\ result (history 1 no_faults db2)
       = Return (VDict [("data",
           VList (match v with VNone => [] | _ => [v] end))]).
Proof.
  intros json_dumps day db1 db2.
  apply (latest_is_history_1 no_faults db2). reflexivity.
Defined.

(** With a count that is at least the number of stored rows, [history]
    returns every stored row exactly once. *)
Theorem history_returns_all (limit : Z) (F : Faults) (db : Database) :
  db_ok db ->
  Z.of_nat (List.length (estimasi_harian db)) <= limit <= PG_INT64_MAX ->
  first_fault F query_calls = None ->
  exists rows : list Row,
    result (history limit F db)
    = Return (VDict [("data", VList (map VDict rows))])
    /\ Permutation rows (estimasi_harian db)
    /\ StronglySorted later rows.
Proof.
  intros Hdb [Hlo Hhi] HF.
  destruct (harian_sorted db Hdb) as (Hp & Hok & _ & Hs).
  exists (order_by_desc "tanggal" (estimasi_harian db)).
  rewrite (history_run limit F db); [|lia|exact HF]. cbn [result].
  rewrite firstn_all2.
  - rewrite map_select_all; [|exact Hok]. repeat split; assumption.
  - rewrite (Permutation_length Hp). lia.
Qed.

Lemma history_returns_all_witness :
  let json_dumps := fun _ : Dict string => "{}" in
  let day := fun d x => {| tanggal := d; kota := "Depok";
                           estimasi := [("Beji", x)]; rata_rata_kota := x;
                           tanggal_fitur := None |} in
  let db1 := store (ingest json_dumps (day 738887 20%float) no_faults empty_db) in
  let db2 := store (ingest json_dumps (day 738888 10%float) no_faults db1) in
  exists rows : list Row,
    result (history 30 no_faults db2)
    = Return (VDict [("data", VList (map VDict rows))])
    /\ Permutation rows (estimasi_harian db2)
    /\ StronglySorted later rows.
Proof.
  intros json_dumps day db1 db2.
  apply (history_returns_all 30 no_faults db2); try reflexivity.
  unfold PG_INT64_MAX. simpl. lia.
Defined.

(** Ingest, then read: after an ingest for a date that no stored row is
    dated after, [latest] returns the payload's row. *)
Theorem ingest_then_latest (json_dumps : Dict string -> string)
    (p : PayloadAggregat) (F F' : Faults) (db : Database) :
  db_ok db ->
  Forall (not_after (harian_row p)) (estimasi_harian db) ->
  returned (ingest json_dumps p F db) = true ->
  first_fault F' query_calls = None ->
  result (latest F' (store (ingest json_dumps p F db)))
  = Return (VDict [("data", VDict (harian_row p))]).
Proof.
  intros Hdb Hmax Hret HF.
  rewrite (ingest_returned_store json_dumps p F db Hret).
  pose proof (upserted_ok json_dumps p db Hdb) as Hok1.
  rewrite (latest_run F' _ HF). cbn [result].
  destruct (harian_sorted _ Hok1) as (Hp & Hok & Hs & _).
  pose proof Hdb as Hdb'. apply db_ok_tables in Hdb' as [Hh _].
  assert (Hnew : In (harian_row p) (estimasi_harian (upserted json_dumps p db))).
  { apply (upsert_in estimasi_harian_schema update_set
             harian_columns_distinct harian_key_columns harian_update_covers);
      auto using harian_row_ok. }
  apply (Permutation_in _ (Permutation_sym Hp)) in Hnew.
  destruct (order_by_desc "tanggal"
              (estimasi_harian (upserted json_dumps p db))) as [|r rest];
    [contradiction|].
  inversion Hok as [|? ? Hr _]; subst.
  apply StronglySorted_inv in Hs as [_ Hall].
  assert (Heq : r = harian_row p).
  { assert (Hin : In r (estimasi_harian (upserted json_dumps p db)))
      by (apply (Permutation_in r Hp); now left).
    apply (upsert_inv estimasi_harian_schema update_set
             harian_columns_distinct harian_key_columns harian_update_covers
             (harian_row p) r _ (harian_row_ok p) Hh) in Hin.
    destruct Hin as [Hin | [Hin Hc]]; [exact Hin|].
    destruct Hnew as [Hnew | Hnew]; [now symmetry|].
    exfalso. rewrite Forall_forall in Hmax, Hall.
    destruct (Hmax r Hin) as (x & y & Hx & Hy & Hle).
    destruct (Hall _ Hnew) as (y' & x' & Hy' & Hx' & Hle').
    rewrite Hy in Hy'. rewrite Hx in Hx'.
    inversion Hy'. inversion Hx'. subst.
    change (conflicts ["tanggal"] (harian_row p) r = false) in Hc.
    rewrite harian_conflicts, Hy, <- harian_row_date, Hx in Hc.
    simpl in Hc. apply Z.eqb_neq in Hc. lia. }
  subst r. now rewrite (harian_select_all _ (harian_row_ok p)).
Qed.

Lemma ingest_then_latest_witness :
  let json_dumps := fun _ : Dict string => "{}" in
  let day := fun d x => {| tanggal := d; kota := "Depok";
                           estimasi := [("Beji", x)]; rata_rata_kota := x;
                           tanggal_fitur := None |} in
  let db1 := store (ingest json_dumps (day 738886 10%float) no_faults empty_db) in
  result (latest no_faults
            (store (ingest json_dumps (day 738887 20%float) no_faults db1)))
  = Return (VDict [("data", VDict (harian_row (day 738887 20%float)))]).
Proof.
  intros json_dumps day db1.
  apply (ingest_then_latest json_dumps (day 738887 20%float) no_faults no_faults
           db1); try reflexivity.
  repeat constructor. exists 738887, 738886. repeat split. lia.
Defined.

(** [n_hari] counts dates: an ingest for a date that has a row leaves the
    count of [stats] as it was, an ingest for a new date raises it by one. *)
Theorem ingest_then_stats (json_dumps : Dict string -> string)
    (p : PayloadAggregat) (F F' : Faults) (db : Database) :
  db_ok db ->
  returned (ingest json_dumps p F db) = true ->
  first_fault F' query_calls = None ->
  exists avg lo hi,
    result (stats F' (store (ingest json_dumps p F db)))
    = Return (VDict [("data",
        VDict [("n_hari",
                VInt (Z.of_nat (List.length (estimasi_harian db))
                      + (if has_date (tanggal p) (estimasi_harian db)
                         then 0 else 1)));
               ("pm25_avg", avg); ("pm25_min", lo); ("pm25_max", hi)])]).
Proof.
  intros Hdb Hret HF.
  rewrite (ingest_returned_store json_dumps p F db Hret).
  assert (Hlen : Z.of_nat (List.length
                   (estimasi_harian (upserted json_dumps p db)))
                 = Z.of_nat (List.length (estimasi_harian db))
                   + (if has_date (tanggal p) (estimasi_harian db)
                      then 0 else 1)).
  { apply db_ok_tables in Hdb as [Hh _]. cbn [upserted estimasi_harian].
    destruct (has_date (tanggal p) (estimasi_harian db)) eqn:E.
    - rewrite (upsert_length estimasi_harian_schema update_set
                 harian_columns_distinct harian_key_columns
                 harian_update_covers); auto using harian_row_ok.
      + now rewrite Z.add_0_r.
      + now rewrite <- has_date_conflicts.
    - rewrite (upsert_new_date p _ E), length_app. cbn [List.length]. lia. }
  rewrite (stats_run F' _ HF). cbn [result]. rewrite Hlen.
  eexists _, _, _. reflexivity.
Qed.

Lemma ingest_then_stats_witness :
  let json_dumps := fun _ : Dict string => "{}" in
  let day := fun d x => {| tanggal := d; kota := "Depok";
                           estimasi := [("Beji", x)]; rata_rata_kota := x;
                           tanggal_fitur := None |} in
  let db1 := store (ingest json_dumps (day 738886 10%float) no_faults empty_db) in
  exists avg lo hi,
    result (stats no_faults
              (store (ingest json_dumps (day 738886 20%float) no_faults db1)))
    = Return (VDict [("data",
        VDict [("n_hari", VInt 1);
               ("pm25_avg", avg); ("pm25_min", lo); ("pm25_max", hi)])]).
Proof.
  intros json_dumps day db1.
  apply (ingest_then_stats json_dumps (day 738886 20%float) no_faults no_faults
           db1); reflexivity.
Defined.

(* ================================================================== *)
(** ** The statement text *)

(** The upsert has one argument and one placeholder per column, whatever
    the payload, so the text sent to the server is the same for every
    payload: payload data travels as arguments only. *)
Theorem upsert_text_fixed (p p' : PayloadAggregat) :
  List.length (values p) = List.length cols
  /\ placeholders p = join ", " (map (fun _ => "%s") cols)
  /\ upsert_sql_text p = upsert_sql_text p'.
Proof.
  assert (Hlen : forall q, List.length (values q) = 14%nat).
  { intros q. unfold values. rewrite length_app, !length_map. reflexivity. }
  split; [now rewrite Hlen|]. split.
  - unfold placeholders. now rewrite Hlen.
  - unfold upsert_sql_text, placeholders. now rewrite !Hlen.
Qed.
